(** * Vacuum probe templates and probe kernels

    A shallow embedding of
    [py4DSTEM/process/braggdiskdetection/probetemplate.py].

    Numbers.  NumPy's float64 values are modelled as exact rationals
    extended with the IEEE special values: in NumPy's array arithmetic
    rounding and overflow (which gives an infinity there, never an
    exception) are idealised away, the behaviour of [+], [-], [*], [/]
    and of the comparisons on infinities and NaN is kept, because the
    source divides by sums that can be zero.  Signed zeros are not
    distinguished.  The one operation of the source on a Python float,
    [sigma_probe_scale**2], raises OverflowError out of the float64
    range, and the model keeps that error.  A property that holds of
    exact arithmetic only says so.

    Arrays.  A 2-D ndarray is a list of rows.  A 4-D datacube is a shape
    together with an element function; slicing materialises a 2-D array.

    Effects.  Python exceptions are an error result; reads of the
    datacube are recorded in a log that is threaded with the datacube
    through a small state monad. *)

From Stdlib Require Import QArith Qabs Qround Qcanon ZArith List Bool Lia
  PeanoNat.
Import ListNotations.

Set Implicit Arguments.

(* ------------------------------------------------------------------ *)
(** ** Idealised float64 arithmetic *)

Module Num.

Local Open Scope Qc_scope.

(** [Inf false] is [+inf], [Inf true] is [-inf]. *)
Inductive num : Type :=
| Fin (q : Qc)
| Inf (neg : bool)
| NaN.

Definition of_nat (n : nat) : num := Fin (Q2Qc (inject_Z (Z.of_nat n))).
Definition of_Z (z : Z) : num := Fin (Q2Qc (inject_Z z)).

Definition zero : num := Fin 0.
Definition one : num := Fin 1.

Definition fneg (x : num) : num :=
  match x with
  | Fin a => Fin (- a)
  | Inf s => Inf (negb s)
  | NaN => NaN
  end.

Definition fadd (x y : num) : num :=
  match x, y with
  | Fin a, Fin b => Fin (a + b)
  | Fin _, Inf s => Inf s
  | Inf s, Fin _ => Inf s
  | Inf s, Inf t => if Bool.eqb s t then Inf s else NaN
  | _, _ => NaN
  end.

Definition fsub (x y : num) : num := fadd x (fneg y).

Definition is_zero (a : Qc) : bool :=
  match a ?= 0 with Eq => true | _ => false end.

(** Product of an infinity of sign [s] with the finite value [a]. *)
Definition inf_times (s : bool) (a : Qc) : num :=
  match a ?= 0 with
  | Eq => NaN
  | Gt => Inf s
  | Lt => Inf (negb s)
  end.

(** The product of two finite numbers is exact; float64 rounds it, and
    gives an infinity when it is out of range. *)
Definition fmul (x y : num) : num :=
  match x, y with
  | Fin a, Fin b => Fin (a * b)
  | Fin a, Inf s => inf_times s a
  | Inf s, Fin a => inf_times s a
  | Inf s, Inf t => Inf (xorb s t)
  | _, _ => NaN
  end.

(** NumPy true division: a zero divisor gives [nan] or an infinity (and a
    RuntimeWarning), never an exception. *)
Definition fdiv (x y : num) : num :=
  match y with
  | Fin b =>
      if is_zero b then
        match x with
        | Fin a =>
            match a ?= 0 with
            | Eq => NaN
            | Gt => Inf false
            | Lt => Inf true
            end
        | Inf s => Inf s
        | NaN => NaN
        end
      else fmul x (Fin (/ b))
  | Inf _ =>
      match x with
      | Fin _ => Fin 0
      | _ => NaN
      end
  | NaN => NaN
  end.

(** [x > y]; every comparison with NaN is false. *)
Definition fgt (x y : num) : bool :=
  match x, y with
  | Fin a, Fin b => match a ?= b with Gt => true | _ => false end
  | Fin _, Inf t => t
  | Inf s, Fin _ => negb s
  | Inf s, Inf t => negb s && t
  | _, _ => false
  end.

(** The maximum as [np.max] reduces it: NaN propagates. *)
Definition fmax (x y : num) : num :=
  match x, y with
  | NaN, _ => NaN
  | _, NaN => NaN
  | _, _ => if fgt y x then y else x
  end.

Definition is_finite (x : num) : bool :=
  match x with Fin _ => true | _ => false end.

(** A finite number other than zero. *)
Definition is_nonzero (x : num) : bool :=
  match x with Fin a => negb (is_zero a) | _ => false end.

(** Not NaN and not below zero. *)
Definition is_nonneg (x : num) : bool :=
  match x with
  | Fin a => match 0 ?= a with Gt => false | _ => true end
  | Inf s => negb s
  | NaN => false
  end.

Definition is_nan (x : num) : bool :=
  match x with NaN => true | _ => false end.

(** A [bool] used as a number, as in [probe*mask]. *)
Definition of_bool (b : bool) : num := if b then one else zero.

End Num.
Export Num.

Open Scope nat_scope.

(* ------------------------------------------------------------------ *)
(** ** Python results *)

Inductive exn : Type :=
| IndexError
| ValueError
| ZeroDivisionError
| NotImplementedError
| OverflowError.

Inductive py (A : Type) : Type :=
| Ok (a : A)
| Raise (e : exn).

Arguments Ok {A} a.
Arguments Raise {A} e.

Definition raises {A} (r : py A) : Prop := exists e, r = Raise e.

(** [int(n/d)] on non-negative ints: true division, then truncation.
    Below 2^53 the rounded quotient truncates to the floor quotient. *)
Definition int_truediv (n d : nat) : py nat :=
  if d =? 0 then Raise ZeroDivisionError else Ok (n / d).

(** [n % d] on non-negative ints. *)
Definition py_mod (n d : nat) : py nat :=
  if d =? 0 then Raise ZeroDivisionError else Ok (n mod d).

(** [range(a, b)]. *)
Definition range (a b : nat) : list nat := seq a (b - a).

(** [x**2] for a Python float [x].  Unlike NumPy's array arithmetic, the
    float power raises: the square of a finite float is out of the
    float64 range exactly when [|x| >= 2^512] (the largest float below
    [2^512] squares to less than the largest float), and Python then
    raises OverflowError.  [inf**2] is [inf] and [nan**2] is [nan]. *)
Definition square_overflows (x : num) : bool :=
  match x with
  | Fin a => Qle_bool (inject_Z (2 ^ 512)) (Qabs a)
  | _ => false
  end.

Definition float_pow2 (x : num) : py num :=
  if square_overflows x then Raise OverflowError else Ok (fmul x x).

(* ------------------------------------------------------------------ *)
(** ** 2-D arrays *)

Module NDArray.

Definition array : Type := list (list num).
Definition mask : Type := list (list bool).

Definition tabulate {A} (nx ny : nat) (f : nat -> nat -> A) : list (list A) :=
  map (fun i => map (f i) (seq 0 ny)) (seq 0 nx).

(** [ar.shape] of a 2-D array. *)
Definition shape {A} (a : list (list A)) : nat * nat :=
  (length a, length (hd [] a)).

(** A list of rows is an ndarray when all rows have one length. *)
Definition is_ndarray {A} (a : list (list A)) : bool :=
  forallb (fun r => length r =? length (hd [] a)) a.

Definition item {A} (a : list (list A)) (i j : nat) : option A :=
  match nth_error a i with
  | Some r => nth_error r j
  | None => None
  end.

Fixpoint map2 {A B C} (f : A -> B -> C) (l : list A) (m : list B) : list C :=
  match l, m with
  | x :: l', y :: m' => f x y :: map2 f l' m'
  | _, _ => []
  end.

Definition amap {A B} (f : A -> B) (a : list (list A)) : list (list B) :=
  map (map f) a.

(** Elementwise operation on two arrays of one shape. *)
Definition azip {A B C} (f : A -> B -> C) (a : list (list A))
  (b : list (list B)) : list (list C) :=
  map2 (map2 f) a b.

Definition add (a b : array) : array := azip fadd a b.
Definition sub (a b : array) : array := azip fsub a b.
Definition mul (a b : array) : array := azip fmul a b.

(** array (op) scalar, scalar (op) array *)
Definition add_s (a : array) (s : num) : array := amap (fun x => fadd x s) a.
Definition sub_s (a : array) (s : num) : array := amap (fun x => fsub x s) a.
Definition mul_s (a : array) (s : num) : array := amap (fun x => fmul x s) a.
Definition div_s (a : array) (s : num) : array := amap (fun x => fdiv x s) a.
Definition s_add (s : num) (a : array) : array := amap (fun x => fadd s x) a.
Definition s_mul (s : num) (a : array) : array := amap (fun x => fmul s x) a.
Definition s_div (s : num) (a : array) : array := amap (fun x => fdiv s x) a.
Definition neg (a : array) : array := amap fneg a.

(** [a**2] *)
Definition square (a : array) : array := amap (fun x => fmul x x) a.

(** [a > s] *)
Definition gt_s (a : array) (s : num) : mask := amap (fun x => fgt x s) a.

(** [probe*mask]: float array times bool array. *)
Definition mul_mask (a : array) (m : mask) : array :=
  azip (fun x b => fmul x (of_bool b)) a m.

Definition sum_list (l : list num) : num := fold_right fadd zero l.

(** [np.sum(a)] *)
Definition np_sum (a : array) : num := sum_list (map sum_list a).

(** [np.max(a)]: a zero-size array has no maximum. *)
Definition np_max (a : array) : py num :=
  match concat a with
  | [] => Raise ValueError
  | x :: l => Ok (fold_left fmax l x)
  end.

Definition full {A} (nx ny : nat) (v : A) : list (list A) :=
  tabulate nx ny (fun _ _ => v).

(** Two arrays with as many rows, and row by row as many columns. *)
Definition same_shape {A B} (a : list (list A)) (b : list (list B)) : Prop :=
  Forall2 (fun r r' => length r = length r') a b.

(** Entry by entry, two finite values no further apart than [eps]. *)
Definition close (eps : Qc) (a b : array) : Prop :=
  Forall2
    (Forall2 (fun x y =>
       exists p q, x = Fin p /\ y = Fin q
                   /\ (p - q <= eps)%Qc /\ (q - p <= eps)%Qc))
    a b.

(** A property of every entry. *)
Definition every {A} (P : A -> Prop) (a : list (list A)) : Prop :=
  Forall (Forall P) a.

Definition zero_or_nan (x : num) : Prop := x = zero \/ x = NaN.

(** A finite number that is not negative. *)
Definition finite_nonneg (x : num) : Prop :=
  exists a, x = Fin a /\ (0 <= a)%Qc.

(** NaN, or a number that is not negative ([+inf] included). *)
Definition nan_or_nonneg (x : num) : Prop := x = NaN \/ is_nonneg x = true.

Definition is_zero_num (x : num) : bool :=
  match x with Fin a => is_zero a | _ => false end.

(** An all-zero array. *)
Definition all_zero (a : array) : bool :=
  forallb (forallb is_zero_num) a.

(** The array of the shape of [a] that holds NaN everywhere. *)
Definition nan_like {A} (a : list (list A)) : array :=
  amap (fun _ => NaN) a.

Definition zeros_like {A} (a : list (list A)) : array :=
  amap (fun _ => zero) a.

Definition all_finite (a : array) : bool :=
  forallb (forallb is_finite) a.

Definition all_nan (a : array) : bool :=
  forallb (forallb is_nan) a.

End NDArray.
Export NDArray.

(* ------------------------------------------------------------------ *)
(** ** The datacube and the effects of reading it *)

(** Modelled from the spec: the [DataCube] class is not part of this file.
    [data4D] has shape [(R_Nx, R_Ny, Q_Nx, Q_Ny)]; [R_N] is the total number
    of scan positions, [R_Nx * R_Ny]. *)
Record DataCube : Type := {
  R_Nx : nat;
  R_Ny : nat;
  Q_Nx : nat;
  Q_Ny : nat;
  data4D : nat -> nat -> nat -> nat -> num
}.

Definition R_N (dc : DataCube) : nat := R_Nx dc * R_Ny dc.

(** The diffraction pattern stored at scan position [(i, j)]. *)
Definition pattern (dc : DataCube) (i j : nat) : array :=
  tabulate (Q_Nx dc) (Q_Ny dc) (data4D dc i j).

(** Whether a scan position lies inside the first two axes. *)
Definition in_scan (dc : DataCube) (pos : nat * nat) : bool :=
  (fst pos <? R_Nx dc) && (snd pos <? R_Ny dc).

(** [datacube.data4D[i,j,:,:]] for non-negative [i], [j]. *)
Definition slice (dc : DataCube) (i j : nat) : py array :=
  if in_scan dc (i, j) then Ok (pattern dc i j) else Raise IndexError.

(** The datacube a function was handed, and the scan positions it has
    indexed so far (most recent last). *)
Record world : Type := {
  cube : DataCube;
  reads : list (nat * nat)
}.

Definition M (A : Type) : Type := world -> py A * world.

Definition ret {A} (a : A) : M A := fun w => (Ok a, w).

Definition bind {A B} (m : M A) (k : A -> M B) : M B :=
  fun w =>
    match m w with
    | (Ok a, w') => k a w'
    | (Raise e, w') => (Raise e, w')
    end.

Definition lift {A} (r : py A) : M A := fun w => (r, w).

(** Reading an attribute of the datacube. *)
Definition attr {A} (f : DataCube -> A) : M A := fun w => (Ok (f (cube w)), w).

Definition logged (w : world) (pos : nat * nat) : world :=
  {| cube := cube w; reads := reads w ++ [pos] |}.

(** [datacube.data4D[i,j,:,:]], recorded in the log. *)
Definition read4D (i j : nat) : M array :=
  fun w => (slice (cube w) i j, logged w (i, j)).

Notation "x <- m ;; k" := (bind m (fun x => k))
  (at level 61, m at next level, right associativity).

(** [for n in ns: acc = body(n, acc)] *)
Fixpoint for_each {A} (ns : list nat) (body : nat -> A -> M A) (acc : A) : M A :=
  match ns with
  | [] => ret acc
  | n :: ns' => acc' <- body n acc ;; for_each ns' body acc'
  end.

(** The world after the first pattern has been read. *)
Definition start (dc : DataCube) : world := {| cube := dc; reads := [(0, 0)] |}.

(** Running a function on a datacube, starting with an empty log. *)
Definition run {A} (m : M A) (dc : DataCube) : py A * world :=
  m {| cube := dc; reads := [] |}.

Definition result {A} (m : M A) (dc : DataCube) : py A := fst (run m dc).
Definition reads_of {A} (m : M A) (dc : DataCube) : list (nat * nat) :=
  reads (snd (run m dc)).
Definition cube_after {A} (m : M A) (dc : DataCube) : DataCube :=
  cube (snd (run m dc)).

(* ------------------------------------------------------------------ *)
(** ** The imported primitives *)

(** [get_shifted_ar], [get_CoM] and [get_shift] come from [..utils],
    [binary_opening] and [binary_dilation] from [scipy.ndimage], [np.exp]
    and [np.sqrt] from NumPy.  None of them is defined in this file; the
    code is verified against any implementation.  [np_exp] and [np_sqrt]
    give the value on a finite argument. *)
Class Externals : Type := {
  get_shift : array -> array -> num * num;
  get_shifted_ar : array -> num -> num -> array;
  get_CoM : array -> num * num;
  binary_opening : mask -> Z -> mask;
  binary_dilation : mask -> Z -> mask;
  np_exp : Qc -> num;
  np_sqrt : Qc -> num
}.

(** Two datacubes of one shape that hold the same patterns at every scan
    position but (0,0). *)
Definition same_but_first (dc dc' : DataCube) : Prop :=
  R_Nx dc = R_Nx dc' /\ R_Ny dc = R_Ny dc' /\
  Q_Nx dc = Q_Nx dc' /\ Q_Ny dc = Q_Ny dc' /\
  forall i j x y, (i, j) <> (0, 0) -> data4D dc i j x y = data4D dc' i j x y.

(** A datacube that holds the pattern [P] at every scan position. *)
Definition identical (dc : DataCube) (P : array) : Prop :=
  forall i j, i < R_Nx dc -> j < R_Ny dc -> pattern dc i j = P.

(** The scan position the averaging loop computes for the linear index. *)
Definition scan_position (dc : DataCube) (n : nat) : nat * nat :=
  (n / R_Nx dc, n mod R_Nx dc).

Section ProbeTemplate.

Context {E : Externals}.

(** [np.exp] and [np.sqrt] on the special values. *)
Definition fexp (x : num) : num :=
  match x with
  | Fin q => np_exp q
  | Inf false => Inf false
  | Inf true => zero
  | NaN => NaN
  end.

Definition fsqrt (x : num) : num :=
  match x with
  | Fin q => match (0 ?= q)%Qc with Gt => NaN | _ => np_sqrt q end
  | Inf false => Inf false
  | Inf true => NaN
  | NaN => NaN
  end.

(** *** Get the vacuum probe *)

(** Lines 42-43: the pattern aligned to the running probe. *)
Definition aligned_to (probe curr_DP : array) : array :=
  let '(xshift, yshift) := get_shift probe curr_DP in
  get_shifted_ar curr_DP xshift yshift.

(** Line 44: [probe*(n-1)/n + curr_DP_shifted/n], in the exact
    arithmetic of the model: float64 rounds each of the four operations
    and overflows to an infinity. *)
Definition running_average (n : nat) (probe curr_DP_shifted : array) : array :=
  add (div_s (mul_s probe (of_nat (n - 1))) (of_nat n))
      (div_s curr_DP_shifted (of_nat n)).

(** The update the spec contrasts it with, [probe*n/(n+1) + shifted/(n+1)]. *)
Definition textbook_average (n : nat) (probe curr_DP_shifted : array) : array :=
  add (div_s (mul_s probe (of_nat n)) (of_nat (n + 1)))
      (div_s curr_DP_shifted (of_nat (n + 1))).

(** Lines 38-44: the body of the averaging loop. *)
Definition average_step (n : nat) (probe : array) : M array :=
  R_Nx_ <- attr R_Nx ;;
  Rx <- lift (int_truediv n R_Nx_) ;;
  R_Nx_ <- attr R_Nx ;;
  Ry <- lift (py_mod n R_Nx_) ;;
  curr_DP <- read4D Rx Ry ;;
  let '(xshift, yshift) := get_shift probe curr_DP in
  let curr_DP_shifted := get_shifted_ar curr_DP xshift yshift in
  ret (running_average n probe curr_DP_shifted).

(** Lines 36-44: the probe accumulated by the loop. *)
Definition accumulate_probe : M array :=
  probe <- read4D 0 0 ;;
  R_N_ <- attr R_N ;;
  for_each (range 1 R_N_) average_step probe.

(** The patterns of the indices [ns] as the loop aligns them, one after
    the other, starting from the accumulator [probe]. *)
Fixpoint aligned_run (dc : DataCube) (ns : list nat) (probe : array)
  : list array :=
  match ns with
  | [] => []
  | n :: ns' =>
      let pos := scan_position dc n in
      let curr_DP_shifted := aligned_to probe (pattern dc (fst pos) (snd pos)) in
      curr_DP_shifted
        :: aligned_run dc ns' (running_average n probe curr_DP_shifted)
  end.

(** The entrywise sum and the entrywise mean of arrays of the shape of
    [like]. *)
Definition array_sum (l : list array) (like : array) : array :=
  fold_left add l (zeros_like like).

Definition array_mean (l : list array) (like : array) : array :=
  div_s (array_sum l like) (of_nat (length l)).

(** Lines 46-48: the mask derived from a probe. *)
Definition probe_mask (probe : array) (mask_threshold : num)
  (mask_expansion mask_opening : Z) : py mask :=
  match np_max probe with
  | Ok m =>
      let mask := gt_s probe (fmul m mask_threshold) in
      let mask := binary_opening mask mask_opening in
      let mask := binary_dilation mask mask_expansion in
      Ok mask
  | Raise e => Raise e
  end.

(** The [datacube] argument is the cube of the world the function runs
    in. *)
Definition get_average_probe_from_vacuum_scan (mask_threshold : num)
  (mask_expansion mask_opening : Z) : M array :=
  probe <- accumulate_probe ;;
  mask <- lift (probe_mask probe mask_threshold mask_expansion mask_opening) ;;
  ret (mul_mask probe mask).

(** The defaults of the keyword arguments. *)
Definition default_mask_threshold : num := Fin (Q2Qc (2 # 10)).
Definition default_mask_expansion : Z := 12.
Definition default_mask_opening : Z := 3.

(** Lines 53-57: both bodies are [pass]. *)
Definition get_average_probe_from_ROI {T} (args : list T) : M (option array) :=
  ret None.

Definition get_synthetic_probe {T} (args : list T) : M (option array) :=
  ret None.

(** *** Get the probe kernel *)

(** [qy,qx = np.meshgrid(np.arange(Q_Ny),np.arange(Q_Nx))] *)
Definition meshgrid_qx (Q_Nx Q_Ny : nat) : array :=
  tabulate Q_Nx Q_Ny (fun i _ => of_nat i).
Definition meshgrid_qy (Q_Nx Q_Ny : nat) : array :=
  tabulate Q_Nx Q_Ny (fun _ j => of_nat j).

Definition get_probe_kernel (probe : array) : py array :=
  let '(xCoM, yCoM) := get_CoM probe in
  let probe := div_s probe (np_sum probe) in
  let probe_kernel := get_shifted_ar probe (fneg xCoM) (fneg yCoM) in
  Ok probe_kernel.

(** [(qx-xCoM)**2 + (qy-yCoM)**2]; [get_CoM probe] is the centre of mass
    computed at the top of each generator. *)
Definition radial2 (probe : array) : array :=
  let '(Q_Nx, Q_Ny) := shape probe in
  let '(xCoM, yCoM) := get_CoM probe in
  let qx := meshgrid_qx Q_Nx Q_Ny in
  let qy := meshgrid_qy Q_Nx Q_Ny in
  add (square (sub_s qx xCoM)) (square (sub_s qy yCoM)).

(** Line 115: the Gaussian before it is normalised, [sigma2] being the
    value of [sigma_probe_scale**2]. *)
Definition subtr_gaussian (probe : array) (sigma2 : num) : array :=
  let q2 := radial2 probe in
  let qstd2 := fdiv (np_sum (mul q2 probe)) (np_sum probe) in
  amap fexp (div_s (neg q2) (fmul (fmul (of_nat 2) qstd2) sigma2)).

(** Lines 114-117: the kernel before the shift.  The float power of line
    115 is the one step of the generators that can raise. *)
Definition subtrgaussian_template (probe : array) (sigma_probe_scale : num)
  : py array :=
  let probe_template_norm := div_s probe (np_sum probe) in
  match float_pow2 sigma_probe_scale with
  | Ok sigma2 =>
      let g := subtr_gaussian probe sigma2 in
      let g := div_s g (np_sum g) in
      Ok (sub probe_template_norm g)
  | Raise e => Raise e
  end.

Definition get_probe_kernel_subtrgaussian (probe : array)
  (sigma_probe_scale : num) : py array :=
  let '(xCoM, yCoM) := get_CoM probe in
  match subtrgaussian_template probe sigma_probe_scale with
  | Ok probe_kernel =>
      let probe_kernel := get_shifted_ar probe_kernel (fneg xCoM) (fneg yCoM) in
      Ok probe_kernel
  | Raise e => Raise e
  end.

(** Lines 147-148: the distance from the disk edge, [qr]. *)
Definition edge_distance (probe : array) (radius : num) : array :=
  let qr := amap fsqrt (radial2 probe) in
  sub_s qr radius.

(** [1/(1+np.exp(4*qr/blurwidth))], one wall of the trench. *)
Definition logistic (qr : array) (blurwidth : num) : array :=
  s_div one (s_add one (amap fexp (div_s (s_mul (of_nat 4) qr) blurwidth))).

(** Line 151. *)
Definition logistic_annulus (probe : array) (radius trenchwidth blurwidth : num)
  : array :=
  let qr := edge_distance probe radius in
  sub (logistic qr blurwidth) (logistic (sub_s qr trenchwidth) blurwidth).

(** Lines 154-156: the kernel before the shift. *)
Definition logistictrench_template (probe : array)
  (radius trenchwidth blurwidth : num) : array :=
  let a := logistic_annulus probe radius trenchwidth blurwidth in
  let probe_template_norm := div_s probe (np_sum probe) in
  let logistic_annulus_norm := div_s a (np_sum a) in
  sub probe_template_norm logistic_annulus_norm.

Definition get_probe_kernel_logistictrench (probe : array)
  (radius trenchwidth blurwidth : num) : py array :=
  let '(xCoM, yCoM) := get_CoM probe in
  let probe_kernel := logistictrench_template probe radius trenchwidth blurwidth in
  let probe_kernel := get_shifted_ar probe_kernel (fneg xCoM) (fneg yCoM) in
  Ok probe_kernel.

End ProbeTemplate.

(* ------------------------------------------------------------------ *)
(** ** Reference primitives

    Executable stand-ins for the imported primitives, restricted to what
    exact rational arithmetic can express.  They are used to run the code
    on concrete datacubes and probes. *)

Module Reference.

(** Modelled from the spec: [centroid(array)], the intensity-weighted mean
    of the (x, y) index over the full array; [get_CoM] is missing here. *)
Definition CoM (ar : array) : num * num :=
  let '(nx, ny) := shape ar in
  let tot_intens := np_sum ar in
  (fdiv (np_sum (mul (meshgrid_qx nx ny) ar)) tot_intens,
   fdiv (np_sum (mul (meshgrid_qy nx ny) ar)) tot_intens).

(** Rotation of a list to the right by [k] places, with wrap-around. *)
Definition rotate {A} (k : Z) (l : list A) : list A :=
  let n := length l in
  let r := Z.to_nat (k mod Z.of_nat n) in
  skipn (n - r) l ++ firstn (n - r) l.

(** The whole-pixel part of a shift; a shift that is not finite moves
    nothing. *)
Definition pixels (x : num) : Z :=
  match x with
  | Fin q => Qfloor (this q)
  | _ => 0%Z
  end.

(** Modelled from the spec: [shift_array(array, dx, dy)], a circular
    (wrap-around) translation, here by whole pixels; [get_shifted_ar] is
    missing here. *)
Definition shifted_ar (ar : array) (xshift yshift : num) : array :=
  map (rotate (pixels yshift)) (rotate (pixels xshift) ar).

Fixpoint argmax_from (l : list num) (i best : nat) (bv : num) : nat :=
  match l with
  | [] => best
  | x :: l' =>
      if fgt x bv then argmax_from l' (S i) i x
      else argmax_from l' (S i) best bv
  end.

(** Position of the first maximal entry. *)
Definition peak (ar : array) : nat * nat :=
  let k := match concat ar with
           | [] => 0
           | x :: l => argmax_from l 1 0 x
           end in
  let ny := snd (shape ar) in
  (k / ny, k mod ny).

(** Modelled from the spec: [estimate_shift(reference, target)], the
    translation that best aligns target to reference, here the whole-pixel
    offset between the two maxima; [get_shift] is missing here. *)
Definition shift (ar1 ar2 : array) : num * num :=
  let '(x1, y1) := peak ar1 in
  let '(x2, y2) := peak ar2 in
  (of_Z (Z.of_nat x1 - Z.of_nat x2), of_Z (Z.of_nat y1 - Z.of_nat y2)).

Definition pixel (m : mask) (i j : Z) : bool :=
  if (i <? 0)%Z || (j <? 0)%Z then false
  else match item m (Z.to_nat i) (Z.to_nat j) with
       | Some b => b
       | None => false
       end.

(** One step with the cross-shaped structuring element; pixels outside
    the array count as unset. *)
Definition dilate1 (m : mask) : mask :=
  let '(nx, ny) := shape m in
  tabulate nx ny (fun i j =>
    let i := Z.of_nat i in let j := Z.of_nat j in
    pixel m i j || pixel m (i - 1) j || pixel m (i + 1) j
    || pixel m i (j - 1) || pixel m i (j + 1)).

Definition erode1 (m : mask) : mask :=
  let '(nx, ny) := shape m in
  tabulate nx ny (fun i j =>
    let i := Z.of_nat i in let j := Z.of_nat j in
    pixel m i j && pixel m (i - 1) j && pixel m (i + 1) j
    && pixel m i (j - 1) && pixel m i (j + 1)).

(** Fewer than one iteration repeats until nothing changes, which takes
    at most as many steps as there are pixels. *)
Definition steps (m : mask) (iterations : Z) : nat :=
  if (iterations <? 1)%Z then fst (shape m) * snd (shape m)
  else Z.to_nat iterations.

(** Modelled from the spec: binary morphology with the default
    structuring element, repeated [iterations] times; scipy's
    [binary_dilation] and [binary_opening] are missing here. *)
Definition dilation (m : mask) (iterations : Z) : mask :=
  Nat.iter (steps m iterations) dilate1 m.

Definition erosion (m : mask) (iterations : Z) : mask :=
  Nat.iter (steps m iterations) erode1 m.

Definition opening (m : mask) (iterations : Z) : mask :=
  dilation (erosion m iterations) iterations.

Local Open Scope Qc_scope.

(** A positive rational stand-in for [np.exp]. *)
Definition exp2 (q : Qc) : num := Fin (1 + q + q * q / (1 + 1)).

(** A rational stand-in for [np.sqrt]: three Heron steps. *)
Definition heron (q x : Qc) : Qc :=
  if is_zero x then 0 else (x + q / x) / Q2Qc 2.
Definition sqrt3 (q : Qc) : num :=
  Fin (heron q (heron q (heron q ((1 + q) / Q2Qc 2)))).

Definition externals : Externals := {|
  get_shift := shift;
  get_shifted_ar := shifted_ar;
  get_CoM := CoM;
  binary_opening := opening;
  binary_dilation := dilation;
  np_exp := exp2;
  np_sqrt := sqrt3
|}.

(** A blob with its maximum 4 at [(cx, cy)], 2 on the four neighbours
    and 1 on the diagonals. *)
Definition blob (cx cy x y : nat) : num :=
  let dx := Z.abs (Z.of_nat x - Z.of_nat cx) in
  let dy := Z.abs (Z.of_nat y - Z.of_nat cy) in
  if ((dx =? 0) && (dy =? 0))%Z then of_nat 4
  else if ((dx + dy =? 1))%Z then of_nat 2
  else if ((dx =? 1) && (dy =? 1))%Z then of_nat 1
  else zero.

(** A [rx] by [ry] scan of 5x5 patterns, the blob of position [(i, j)]
    centred at [centre i j]. *)
Definition blobs (rx ry : nat) (centre : nat -> nat -> nat * nat) : DataCube := {|
  R_Nx := rx; R_Ny := ry; Q_Nx := 5; Q_Ny := 5;
  data4D := fun i j x y => blob (fst (centre i j)) (snd (centre i j)) x y
|}.

(** One part in a million, the blur width of the degenerate trench. *)
Definition tiny : num := Fin (Q2Qc (1 # 1000000)).

(** Every blob at (2,2). *)
Definition aligned (rx ry : nat) : DataCube := blobs rx ry (fun _ _ => (2, 2)).

(** As [aligned 2 2], but the blob of pattern #0 sits at (2,3). *)
Definition first_moved : DataCube :=
  blobs 2 2 (fun i j => if (i =? 0) && (j =? 0) then (2, 3) else (2, 2)).

(** A single 5x5 probe, the blob at (2,2). *)
Definition blob5 : array := pattern (aligned 1 1) 0 0.

(** A 2x2 scan of patterns without a pixel. *)
Definition no_pixels : DataCube := {|
  R_Nx := 2; R_Ny := 2; Q_Nx := 0; Q_Ny := 3;
  data4D := fun _ _ _ _ => zero
|}.

(** A probe whose two entries cancel, and one with a NaN pixel. *)
Definition cancelling : array := [[one; fneg one]].
Definition with_nan : array := [[NaN; one]].

(** A 2x2 scan of one pattern, the blob with the pixel (0,0) at [+inf]. *)
Definition inf_pixel : DataCube := {|
  R_Nx := 2; R_Ny := 2; Q_Nx := 5; Q_Ny := 5;
  data4D := fun _ _ x y =>
    match x, y with
    | 0, 0 => Inf false
    | _, _ => blob 2 2 x y
    end
|}.

(** The least width whose square is out of the float64 range. *)
Definition huge : num := of_Z (2 ^ 512).

End Reference.

(* ================================================================== *)
(** * Properties *)

Unset Implicit Arguments.

(** ** Arithmetic on the extended rationals *)

Section NumFacts.

Local Open Scope Qc_scope.

Lemma is_zero_true (a : Qc) : is_zero a = true <-> a = 0.
Proof.
  unfold is_zero. rewrite Qceq_alt.
  destruct (a ?= 0); split; congruence.
Qed.

Lemma is_zero_false (a : Qc) : is_zero a = false <-> a <> 0.
Proof.
  rewrite <- is_zero_true. destruct (is_zero a); split; congruence.
Qed.

Lemma of_nat_inj_0 (n : nat) : (0 < n)%nat -> Q2Qc (inject_Z (Z.of_nat n)) <> 0.
Proof.
  intros Hn H. apply (f_equal this) in H.
  change (Qred (inject_Z (Z.of_nat n)) = Qred (inject_Z 0)) in H.
  apply Qred_eq_iff in H. unfold Qeq in H. simpl in H. lia.
Qed.

Lemma fadd_comm (x y : num) : fadd x y = fadd y x.
Proof.
  destruct x as [a|s|], y as [b|t|]; simpl; try reflexivity.
  - f_equal. ring.
  - destruct s, t; reflexivity.
Qed.

Lemma fadd_assoc (x y z : num) : fadd x (fadd y z) = fadd (fadd x y) z.
Proof.
  destruct x as [a|s|], y as [b|t|], z as [c|u|]; simpl; try reflexivity;
    try (f_equal; ring);
    repeat match goal with b : bool |- _ => destruct b end; reflexivity.
Qed.

Lemma fadd_zero_l (x : num) : fadd zero x = x.
Proof. destruct x; simpl; try reflexivity. f_equal. ring. Qed.

Lemma fadd_zero_r (x : num) : fadd x zero = x.
Proof. rewrite fadd_comm. apply fadd_zero_l. Qed.

Lemma fsub_zero_r (x : num) : fsub x zero = x.
Proof. destruct x; simpl; try reflexivity. f_equal. ring. Qed.



Lemma fdiv_fin (a b : Qc) : b <> 0 -> fdiv (Fin a) (Fin b) = Fin (a / b).
Proof.
  intro Hb. unfold fdiv. apply is_zero_false in Hb. rewrite Hb. reflexivity.
Qed.

Lemma fdiv_self (s : Qc) : s <> 0 -> fdiv (Fin s) (Fin s) = one.
Proof.
  intro Hs. rewrite fdiv_fin by assumption. unfold one. f_equal.
  field. assumption.
Qed.

Lemma inf_times_fadd (s t : bool) (c : Qc) :
  c <> 0 ->
  fadd (inf_times s c) (inf_times t c)
  = if Bool.eqb s t then inf_times s c else NaN.
Proof.
  intro Hc. unfold inf_times.
  destruct (c ?= 0) eqn:Hcmp.
  - apply Qceq_alt in Hcmp. contradiction.
  - destruct s, t; reflexivity.
  - destruct s, t; reflexivity.
Qed.

(** Division by a finite non-zero scalar distributes over addition. *)
Lemma fdiv_fadd (x y : num) (s : Qc) :
  s <> 0 -> fdiv (fadd x y) (Fin s) = fadd (fdiv x (Fin s)) (fdiv y (Fin s)).
Proof.
  intro Hs. unfold fdiv.
  assert (Hz := Hs). apply is_zero_false in Hz. rewrite Hz.
  assert (Hi : / s <> 0).
  { intro H. pose proof (Qcmult_inv_r s Hs) as H1. rewrite H in H1.
    rewrite Qcmult_0_r in H1. discriminate H1. }
  destruct x as [a|u|], y as [b|t|]; simpl; try reflexivity.
  - f_equal. ring.
  - unfold inf_times. destruct (/ s ?= 0); reflexivity.
  - unfold inf_times. destruct (/ s ?= 0); reflexivity.
  - rewrite inf_times_fadd by assumption.
    destruct (Bool.eqb u t); reflexivity.
  - unfold inf_times. destruct (/ s ?= 0); reflexivity.
Qed.

Lemma fdiv_zero_fin (s : Qc) : s <> 0 -> fdiv zero (Fin s) = zero.
Proof.
  intro Hs. unfold zero. rewrite fdiv_fin by assumption. f_equal.
  field. assumption.
Qed.

(** [x - x] is zero on finite values and NaN otherwise. *)
Lemma fsub_self (x : num) : fsub x x = if is_finite x then zero else NaN.
Proof.
  destruct x as [a|s|]; simpl; try reflexivity.
  - unfold zero. f_equal. ring.
  - destruct s; reflexivity.
Qed.

Lemma fgt_fin (a b : Qc) : fgt (Fin a) (Fin b) = true <-> b < a.
Proof.
  unfold fgt. rewrite Qclt_alt. unfold Qccompare.
  rewrite <- (Qcompare_antisym (this a) (this b)).
  destruct (Qcompare (this a) (this b)); simpl; split; congruence.
Qed.

(** A finite value times a mask bit that is unset is zero. *)
Lemma fmul_false (a : Qc) : fmul (Fin a) (of_bool false) = zero.
Proof. simpl. unfold zero. f_equal. ring. Qed.

Lemma fmul_true (x : num) : fmul x (of_bool true) = x.
Proof.
  destruct x as [a|s|]; simpl; try reflexivity.
  f_equal. ring.
Qed.

Lemma Qcsquare_nonneg (d : Qc) : (0 <= d * d)%Qc.
Proof.
  unfold Qcle. change (this (d * d)%Qc) with (Qred (this d * this d)).
  rewrite Qred_correct. unfold Qle, Qmult. simpl.
  rewrite Z.mul_1_r. apply Z.square_nonneg.
Qed.

Lemma Qcsum_squares_nonneg (d e : Qc) : (0 <= d * d + e * e)%Qc.
Proof.
  replace 0%Qc with (0 + 0)%Qc by ring.
  apply Qcplus_le_compat; apply Qcsquare_nonneg.
Qed.

Lemma Qcone_plus_nonneg (e : Qc) : (0 <= e)%Qc -> (1 + e)%Qc <> 0%Qc.
Proof.
  intros He H.
  assert (Hm : e = (0 - 1)%Qc).
  { replace e with ((1 + e) - 1)%Qc by ring. now rewrite H. }
  subst e. apply (proj1 (Qcle_alt _ _)) in He. apply He. reflexivity.
Qed.

Lemma fdiv_one_r (x : num) : fdiv x (of_nat 1) = x.
Proof.
  destruct x as [a|s|]; try reflexivity.
  unfold of_nat. rewrite fdiv_fin by (apply of_nat_inj_0; lia).
  f_equal. change (Q2Qc (inject_Z (Z.of_nat 1))) with 1%Qc.
  field. discriminate.
Qed.

Lemma of_nat_pred (n : nat) :
  (1 <= n)%nat ->
  Q2Qc (inject_Z (Z.of_nat (n - 1)%nat))
  = (Q2Qc (inject_Z (Z.of_nat n)) - 1)%Qc.
Proof.
  intro Hn. unfold Qcminus, Qcplus, Qcopp. apply Q2Qc_eq_iff.
  cbn [this Q2Qc]. rewrite !Qred_correct.
  unfold Qeq, Qplus, Qopp, inject_Z. cbn [Qnum Qden]. lia.
Qed.

End NumFacts.

(** ** Arrays *)

Section ArrayFacts.

Lemma map2_length {A B C} (f : A -> B -> C) (l : list A) (m : list B) :
  length l = length m -> length (map2 f l m) = length l.
Proof.
  revert m. induction l as [|x l IH]; intros [|y m] H; simpl in *;
    try discriminate; auto.
Qed.

Lemma same_shape_refl {A} (a : list (list A)) : same_shape a a.
Proof. induction a; constructor; auto. Qed.

Lemma same_shape_sym {A B} (a : list (list A)) (b : list (list B)) :
  same_shape a b -> same_shape b a.
Proof. induction 1; constructor; auto. Qed.

Lemma same_shape_trans {A B C} (a : list (list A)) (b : list (list B))
  (c : list (list C)) : same_shape a b -> same_shape b c -> same_shape a c.
Proof.
  intro H. revert c.
  induction H as [|r r' a b Hr _ IH]; intros c Hc; inversion Hc; subst.
  - constructor.
  - constructor; [congruence | apply IH; assumption].
Qed.

Lemma same_shape_amap {A B} (f : A -> B) (a : list (list A)) :
  same_shape (amap f a) a.
Proof.
  induction a; constructor; auto. apply length_map.
Qed.

Lemma same_shape_azip {A B C} (f : A -> B -> C) (a : list (list A))
  (b : list (list B)) : same_shape a b -> same_shape (azip f a b) a.
Proof.
  induction 1; constructor; auto. apply map2_length. assumption.
Qed.

Lemma same_shape_length {A B} (a : list (list A)) (b : list (list B)) :
  same_shape a b -> length a = length b.
Proof. induction 1; simpl; auto. Qed.

Lemma same_shape_concat_nil {A B} (a : list (list A)) (b : list (list B)) :
  same_shape a b -> concat a = [] -> concat b = [].
Proof.
  induction 1 as [|r r' a b Hr _ IH]; simpl; auto.
  intro H. apply app_eq_nil in H. destruct H as [H1 H2]. subst r.
  destruct r'; [ | discriminate Hr]. simpl. auto.
Qed.

(** A tabulated array has the shape of every ndarray with these
    dimensions. *)
Lemma same_shape_tabulate {A B} (f : nat -> nat -> B) (a : list (list A)) :
  is_ndarray a = true ->
  same_shape (tabulate (fst (shape a)) (snd (shape a)) f) a.
Proof.
  unfold is_ndarray, shape, tabulate. simpl.
  generalize (length (hd [] a)) as ny. intros ny H.
  set (g := fun i => map (f i) (seq 0 ny)).
  assert (Hg : forall i, length (g i) = ny).
  { intro i. unfold g. now rewrite length_map, length_seq. }
  clearbody g. generalize 0 as k.
  induction a as [|r a IH]; intro k; simpl in *.
  - constructor.
  - apply andb_prop in H. destruct H as [Hr Ha]. constructor.
    + rewrite Hg. apply Nat.eqb_eq in Hr. auto.
    + apply IH. assumption.
Qed.

Lemma is_ndarray_tabulate {A} (nx ny : nat) (f : nat -> nat -> A) :
  is_ndarray (tabulate nx ny f) = true.
Proof.
  unfold is_ndarray, tabulate. apply forallb_forall. intros r Hr.
  apply in_map_iff in Hr. destruct Hr as [i [<- Hi]].
  apply Nat.eqb_eq. destruct nx; simpl in *; [contradiction|].
  now rewrite !length_map, !length_seq.
Qed.

Lemma sum_list_div (l : list num) (s : Qc) :
  s <> 0%Qc ->
  sum_list (map (fun x => fdiv x (Fin s)) l) = fdiv (sum_list l) (Fin s).
Proof.
  intro Hs. unfold sum_list. induction l as [|x l IH]; cbn [map fold_right].
  - symmetry. apply fdiv_zero_fin. assumption.
  - rewrite IH. symmetry. apply fdiv_fadd. assumption.
Qed.

(** [np.sum(a/s) = np.sum(a)/s] for a finite non-zero scalar. *)
Lemma np_sum_div_s (a : array) (s : Qc) :
  s <> 0%Qc -> np_sum (div_s a (Fin s)) = fdiv (np_sum a) (Fin s).
Proof.
  intro Hs. unfold np_sum, div_s, amap.
  induction a as [|r a IH]; cbn [map].
  - symmetry. apply fdiv_zero_fin. assumption.
  - change (sum_list (?x :: ?l)) with (fadd x (sum_list l)).
    rewrite IH, sum_list_div by assumption.
    symmetry. apply fdiv_fadd. assumption.
Qed.



(** A normalised array sums to one. *)
Lemma np_sum_normalised (a : array) (s : Qc) :
  np_sum a = Fin s -> s <> 0%Qc -> np_sum (div_s a (np_sum a)) = one.
Proof.
  intros Ha Hs. rewrite Ha, np_sum_div_s, Ha by assumption.
  apply fdiv_self. assumption.
Qed.

End ArrayFacts.

(** ** Entrywise reasoning *)

Section Entrywise.

Lemma every_amap {A B} (P : B -> Prop) (f : A -> B) (a : list (list A)) :
  every P (amap f a) <-> every (fun x => P (f x)) a.
Proof.
  unfold every, amap. rewrite Forall_map.
  split; intro H; eapply Forall_impl; try exact H;
    intros r Hr; now apply Forall_map.
Qed.

Lemma every_impl {A} (P Q : A -> Prop) (a : list (list A)) :
  (forall x, P x -> Q x) -> every P a -> every Q a.
Proof.
  intros HPQ H. eapply Forall_impl; [|exact H].
  intros r Hr. eapply Forall_impl; eauto.
Qed.

Lemma every_tabulate {A} (P : A -> Prop) (nx ny : nat) (f : nat -> nat -> A) :
  (forall i j, P (f i j)) -> every P (tabulate nx ny f).
Proof.
  intro H. unfold every, tabulate.
  apply Forall_map, Forall_forall. intros i _.
  apply Forall_map, Forall_forall. intros j _. apply H.
Qed.

Lemma Forall_map2 {A B C} (P : A -> Prop) (Q : B -> Prop) (R : C -> Prop)
  (f : A -> B -> C) (l : list A) (m : list B) :
  (forall x y, P x -> Q y -> R (f x y)) ->
  Forall P l -> Forall Q m -> Forall R (map2 f l m).
Proof.
  intros Hf Hl. revert m. induction Hl as [|x l Hx _ IH]; intros m Hm; simpl.
  - constructor.
  - destruct Hm as [|y m Hy Hm]; constructor; auto.
Qed.

Lemma every_azip {A B C} (P : A -> Prop) (Q : B -> Prop) (R : C -> Prop)
  (f : A -> B -> C) (a : list (list A)) (b : list (list B)) :
  (forall x y, P x -> Q y -> R (f x y)) ->
  every P a -> every Q b -> every R (azip f a b).
Proof.
  intros Hf Ha Hb. unfold every, azip.
  eapply Forall_map2; [|exact Ha|exact Hb].
  intros r r' Hr Hr'. eapply Forall_map2; eauto.
Qed.

Lemma every_forallb {A} (p : A -> bool) (a : list (list A)) :
  forallb (forallb p) a = true <-> every (fun x => p x = true) a.
Proof.
  unfold every. rewrite forallb_forall, Forall_forall.
  split; intros H r Hr.
  - apply Forall_forall. apply forallb_forall. now apply H.
  - apply forallb_forall. apply Forall_forall. now apply H.
Qed.

Lemma amap_ext_every {A B} (f g : A -> B) (a : list (list A)) :
  every (fun x => f x = g x) a -> amap f a = amap g a.
Proof.
  unfold every, amap. induction 1 as [|r a Hr _ IH]; simpl.
  - reflexivity.
  - f_equal; [|exact IH]. induction Hr; simpl; congruence.
Qed.

Lemma amap_amap {A B C} (f : A -> B) (g : B -> C) (a : list (list A)) :
  amap g (amap f a) = amap (fun x => g (f x)) a.
Proof.
  unfold amap. rewrite map_map. apply map_ext. intro r. apply map_map.
Qed.

Lemma amap_id {A} (f : A -> A) (a : list (list A)) :
  (forall x, f x = x) -> amap f a = a.
Proof.
  intro H. unfold amap.
  rewrite (map_ext _ (fun r => r)); [apply map_id|].
  intro r. rewrite (map_ext _ (fun x => x)); [apply map_id|]. exact H.
Qed.

Lemma map2_diag {A B} (f : A -> A -> B) (l : list A) :
  map2 f l l = map (fun x => f x x) l.
Proof. induction l; simpl; congruence. Qed.

Lemma azip_diag {A B} (f : A -> A -> B) (a : list (list A)) :
  azip f a a = amap (fun x => f x x) a.
Proof.
  unfold azip, amap. rewrite map2_diag. apply map_ext.
  intro r. apply map2_diag.
Qed.

(** An elementwise operation whose value is fixed by its right operand. *)
Lemma azip_const_r {A B C} (f : A -> B -> C) (c : C) (a : list (list A))
  (b : list (list B)) :
  same_shape a b -> every (fun y => forall x, f x y = c) b ->
  azip f a b = amap (fun _ => c) a.
Proof.
  unfold every, azip, amap. induction 1 as [|r r' a b Hr _ IH]; intro Hb; simpl.
  - reflexivity.
  - inversion Hb as [|? ? Hr' Hb']; subst. f_equal; [|now apply IH].
    clear - Hr Hr'. revert r' Hr Hr'.
    induction r as [|x r IHr]; intros [|y r'] Hlen Hall; simpl in *;
      try discriminate; [reflexivity|].
    inversion Hall; subst. f_equal; auto.
Qed.

Lemma azip_const_l {A B C} (f : A -> B -> C) (c : C) (a : list (list A))
  (b : list (list B)) :
  same_shape a b -> every (fun x => forall y, f x y = c) a ->
  azip f a b = amap (fun _ => c) a.
Proof.
  unfold every, azip, amap. induction 1 as [|r r' a b Hr _ IH]; intro Ha; simpl.
  - reflexivity.
  - inversion Ha as [|? ? Hr' Ha']; subst. f_equal; [|now apply IH].
    clear - Hr Hr'. revert r' Hr.
    induction Hr' as [|x r Hx _ IHr]; intros [|y r'] Hlen; simpl in *;
      try discriminate; [reflexivity|].
    f_equal; auto.
Qed.

Lemma sum_list_zero_or_nan (l : list num) :
  Forall zero_or_nan l -> zero_or_nan (sum_list l).
Proof.
  unfold sum_list. induction 1 as [|x l Hx _ IH]; cbn [fold_right].
  - now left.
  - destruct Hx as [-> | ->], IH as [-> | ->];
      [left | right | right | right]; reflexivity.
Qed.

Lemma np_sum_zero_or_nan (a : array) :
  every zero_or_nan a -> zero_or_nan (np_sum a).
Proof.
  intro H. unfold np_sum. apply sum_list_zero_or_nan.
  apply Forall_map. eapply Forall_impl; [|exact H].
  intros r. apply sum_list_zero_or_nan.
Qed.

Lemma fdiv_zero_or_nan (x s : num) :
  zero_or_nan x -> zero_or_nan s -> fdiv x s = NaN.
Proof. intros [-> | ->] [-> | ->]; reflexivity. Qed.

(** Normalising an array of zeros divides zero by zero everywhere. *)
Lemma normalise_degenerate (a : array) :
  every zero_or_nan a -> div_s a (np_sum a) = nan_like a.
Proof.
  intro H. unfold div_s, nan_like. apply amap_ext_every.
  eapply every_impl; [|exact H]. intros x Hx. cbv beta.
  apply fdiv_zero_or_nan; [exact Hx|]. now apply np_sum_zero_or_nan.
Qed.

Lemma all_zero_every (a : array) :
  all_zero a = true -> every zero_or_nan a.
Proof.
  intro H. apply every_forallb in H. eapply every_impl; [|exact H].
  intros [q|s|] Hq; simpl in Hq; try discriminate.
  left. unfold zero. f_equal. now apply is_zero_true.
Qed.

Lemma fsub_nan_r (x : num) : fsub x NaN = NaN.
Proof. destruct x; reflexivity. Qed.

Lemma amap_const_same_shape {A B C} (c : C) (a : list (list A))
  (b : list (list B)) :
  same_shape a b -> amap (fun _ => c) a = amap (fun _ => c) b.
Proof.
  unfold amap. induction 1 as [|r r' a b Hr _ IH]; simpl.
  - reflexivity.
  - f_equal; [|exact IH]. clear - Hr. revert r' Hr.
    induction r; intros [|y r'] H; simpl in *; try discriminate;
      [reflexivity|]. f_equal. apply IHr. lia.
Qed.

Lemma nan_like_same_shape {A B} (a : list (list A)) (b : list (list B)) :
  same_shape a b -> nan_like a = nan_like b.
Proof. apply amap_const_same_shape. Qed.

Lemma np_sum_zeros_like {A} (a : list (list A)) : np_sum (zeros_like a) = zero.
Proof.
  unfold np_sum, zeros_like, amap. rewrite map_map.
  induction a as [|r a IH]; cbn [map].
  - reflexivity.
  - change (sum_list (?x :: ?l)) with (fadd x (sum_list l)). rewrite IH.
    rewrite fadd_zero_r. unfold sum_list.
    induction r as [|x r IHr]; cbn [map fold_right]; [reflexivity|].
    rewrite IHr. reflexivity.
Qed.

(** Subtracting from an all-NaN array, or subtracting one, leaves NaN
    everywhere. *)
Lemma sub_nan_l (a b : array) :
  same_shape a b -> sub (nan_like a) b = nan_like a.
Proof.
  intro H. unfold sub.
  rewrite (azip_const_l fsub NaN (nan_like a) b).
  - unfold nan_like. apply amap_amap.
  - eapply same_shape_trans; [apply same_shape_amap|exact H].
  - unfold nan_like. apply every_amap. unfold every.
    apply Forall_forall. intros r _. apply Forall_forall. intros x _.
    reflexivity.
Qed.

Lemma sub_nan_r (a b : array) :
  same_shape a b -> sub a (nan_like b) = nan_like a.
Proof.
  intro H. unfold sub.
  rewrite (azip_const_r fsub NaN a (nan_like b)).
  - reflexivity.
  - eapply same_shape_trans; [exact H|].
    apply same_shape_sym, same_shape_amap.
  - unfold nan_like. apply every_amap. unfold every.
    apply Forall_forall. intros r _. apply Forall_forall. intros x _.
    intro y. apply fsub_nan_r.
Qed.

Lemma azip_amap {A B C D F} (f : C -> D -> F) (g : A -> C) (h : B -> D)
  (a : list (list A)) (b : list (list B)) :
  azip f (amap g a) (amap h b) = azip (fun x y => f (g x) (h y)) a b.
Proof.
  unfold azip, amap. revert b. induction a as [|r a IH]; intros [|r' b]; simpl;
    try reflexivity.
  f_equal; [|apply IH]. clear. revert r'.
  induction r as [|x r IHr]; intros [|y r']; simpl; try reflexivity.
  f_equal. apply IHr.
Qed.

(** An elementwise operation that returns its right operand. *)
Lemma azip_snd {A B} (P : A -> Prop) (f : A -> B -> B) (a : list (list A))
  (b : list (list B)) :
  same_shape a b -> every P a -> (forall x y, P x -> f x y = y) ->
  azip f a b = b.
Proof.
  unfold every, azip. intros Hs Ha Hf. induction Hs as [|r r' a b Hr _ IH]; simpl.
  - reflexivity.
  - inversion Ha as [|? ? Hr' Ha']; subst. f_equal; [|now apply IH].
    clear - Hr Hr' Hf. revert r' Hr.
    induction Hr' as [|x r Hx _ IHr]; intros [|y r'] Hlen; simpl in *;
      try discriminate; [reflexivity|].
    f_equal; auto.
Qed.

Lemma every_all {A} (P : A -> Prop) (a : list (list A)) :
  (forall x, P x) -> every P a.
Proof.
  intro H. apply Forall_forall. intros r _. apply Forall_forall. auto.
Qed.

End Entrywise.

(** ** The reference shift preserves sums and shapes *)

Section ReferenceFacts.

Import Reference.

Lemma sum_list_app (l m : list num) :
  sum_list (l ++ m) = fadd (sum_list l) (sum_list m).
Proof.
  unfold sum_list. induction l as [|x l IH]; cbn [app fold_right].
  - symmetry. apply fadd_zero_l.
  - rewrite IH. apply fadd_assoc.
Qed.

Lemma sum_list_rotate (k : Z) (l : list num) :
  sum_list (rotate k l) = sum_list l.
Proof.
  unfold rotate. rewrite sum_list_app, fadd_comm, <- sum_list_app.
  now rewrite firstn_skipn.
Qed.

Lemma map_rotate {A B} (f : A -> B) (k : Z) (l : list A) :
  map f (rotate k l) = rotate k (map f l).
Proof.
  unfold rotate. rewrite length_map, map_app, skipn_map, firstn_map.
  reflexivity.
Qed.

Lemma length_rotate {A} (k : Z) (l : list A) : length (rotate k l) = length l.
Proof.
  unfold rotate. rewrite length_app, Nat.add_comm, <- length_app.
  now rewrite firstn_skipn.
Qed.

Lemma shifted_ar_sum (ar : array) (x y : num) :
  np_sum (shifted_ar ar x y) = np_sum ar.
Proof.
  unfold np_sum, shifted_ar. rewrite map_map.
  rewrite (map_ext _ sum_list) by (intro r; apply sum_list_rotate).
  rewrite map_rotate. apply sum_list_rotate.
Qed.

Lemma same_shape_uniform {A B} (L : nat) (a : list (list A)) (b : list (list B)) :
  Forall (fun r => length r = L) a -> Forall (fun r => length r = L) b ->
  length a = length b -> same_shape a b.
Proof.
  intros Ha. revert b. induction Ha as [|r a Hr _ IH]; intros [|r' b] Hb Hl;
    simpl in Hl; try discriminate; constructor.
  - inversion Hb; subst. congruence.
  - apply IH; [now inversion Hb | lia].
Qed.

Lemma is_ndarray_uniform {A} (a : list (list A)) :
  is_ndarray a = true -> Forall (fun r => length r = length (hd [] a)) a.
Proof.
  unfold is_ndarray. intro H. apply Forall_forall. intros r Hr.
  rewrite forallb_forall in H. apply Nat.eqb_eq. now apply H.
Qed.

Lemma Forall_rotate {A} (P : A -> Prop) (k : Z) (l : list A) :
  Forall P l -> Forall P (rotate k l).
Proof.
  intro H. unfold rotate.
  set (m := length l - Z.to_nat (k mod Z.of_nat (length l))).
  rewrite <- (firstn_skipn m l) in H. apply Forall_app in H.
  apply Forall_app. tauto.
Qed.

(** On an ndarray the reference shift keeps the shape. *)
Lemma shifted_ar_shape (ar : array) (x y : num) :
  is_ndarray ar = true -> same_shape (shifted_ar ar x y) ar.
Proof.
  intro H. apply is_ndarray_uniform in H.
  apply same_shape_uniform with (L := length (hd [] ar)).
  - unfold shifted_ar. apply Forall_map.
    apply Forall_rotate. eapply Forall_impl; [|exact H].
    intros r Hr. cbv beta. now rewrite length_rotate.
  - exact H.
  - unfold shifted_ar. now rewrite length_map, length_rotate.
Qed.

Lemma Qc_two_nonzero : (1 + 1)%Qc <> 0%Qc.
Proof. intro H. apply (f_equal this) in H. vm_compute in H. discriminate H. Qed.

Lemma exp2_nonneg (q : Qc) : is_nonneg (exp2 q) = true.
Proof.
  unfold exp2, is_nonneg.
  assert (H : (0 <= 1 + q + q * q / (1 + 1))%Qc).
  { replace (1 + q + q * q / (1 + 1))%Qc
      with (((q + 1) * (q + 1) + 1 * 1) * / (1 + 1))%Qc
      by (field; apply Qc_two_nonzero).
    replace 0%Qc with (0 * / (1 + 1))%Qc at 1 by ring.
    apply Qcmult_le_compat_r; [apply Qcsum_squares_nonneg|].
    discriminate. }
  apply (proj1 (Qcle_alt _ _)) in H.
  destruct (0 ?= 1 + q + q * q / (1 + 1))%Qc; congruence.
Qed.

Lemma rotate_0 {A} (l : list A) : rotate 0 l = l.
Proof.
  unfold rotate. rewrite Zmod_0_l. cbn [Z.to_nat]. rewrite Nat.sub_0_r.
  now rewrite skipn_all, firstn_all.
Qed.

(** The reference estimator finds no shift between a pattern and itself,
    and the reference shift by nothing is the identity. *)
Lemma shift_same (ar : array) : shift ar ar = (zero, zero).
Proof.
  unfold shift. destruct (peak ar) as [x y]. now rewrite !Z.sub_diag.
Qed.

Lemma shifted_ar_zero (ar : array) : shifted_ar ar zero zero = ar.
Proof.
  unfold shifted_ar. change (pixels zero) with 0%Z. rewrite rotate_0.
  rewrite (map_ext _ (fun r => r)) by (intro r; apply rotate_0).
  apply map_id.
Qed.

End ReferenceFacts.

(** ** Kernels: total mass *)

Section KernelMass.

Context {E : Externals}.

(** The contract the claims assume of the shift primitive. *)
Hypothesis get_shifted_ar_sum :
  forall ar x y, np_sum (get_shifted_ar ar x y) = np_sum ar.

Lemma float_pow2_returns (x : num) :
  square_overflows x = false -> float_pow2 x = Ok (fmul x x).
Proof. unfold float_pow2. now intros ->. Qed.

Lemma float_pow2_raises (x : num) :
  square_overflows x = true -> float_pow2 x = Raise OverflowError.
Proof. unfold float_pow2. now intros ->. Qed.

Lemma float_pow2_zero : float_pow2 zero = Ok (fmul zero zero).
Proof. apply float_pow2_returns. vm_compute. reflexivity. Qed.

Lemma is_nonzero_fin (x : num) :
  is_nonzero x = true -> exists s, x = Fin s /\ s <> 0%Qc.
Proof.
  destruct x as [a|s|]; simpl; try discriminate.
  intro H. exists a. split; [reflexivity|].
  apply is_zero_false. now destruct (is_zero a).
Qed.

Lemma normalised_sum (a : array) :
  is_nonzero (np_sum a) = true -> np_sum (div_s a (np_sum a)) = one.
Proof.
  intro H. apply is_nonzero_fin in H. destruct H as [s [Hs Hn]].
  now apply np_sum_normalised with s.
Qed.

(** Claim C2.  For every probe whose entries sum to a finite non-zero
    value, [get_probe_kernel] returns a kernel, and the kernel sums to 1,
    provided the shift primitive preserves the total of the array it
    shifts.  (Arithmetic is exact here, so the sum is 1 on the nose.) *)
Theorem get_probe_kernel_sums_to_one (probe : array) :
  is_nonzero (np_sum probe) = true ->
  exists probe_kernel,
    get_probe_kernel probe = Ok probe_kernel /\ np_sum probe_kernel = one.
Proof.
  intro H. unfold get_probe_kernel. destruct (get_CoM probe) as [xCoM yCoM].
  eexists. split; [reflexivity|].
  rewrite get_shifted_ar_sum. now apply normalised_sum.
Qed.

Lemma same_shape_radial2 (probe : array) :
  is_ndarray probe = true -> same_shape (radial2 probe) probe.
Proof.
  intro H. unfold radial2.
  change (shape probe) with (fst (shape probe), snd (shape probe)).
  cbv iota beta. destruct (get_CoM probe) as [xCoM yCoM].
  unfold add, square, sub_s, meshgrid_qx, meshgrid_qy.
  eapply same_shape_trans; [apply same_shape_azip|].
  - eapply same_shape_trans; [apply same_shape_amap|].
    eapply same_shape_trans; [apply same_shape_amap|].
    eapply same_shape_trans; [apply same_shape_tabulate; exact H|].
    apply same_shape_sym.
    eapply same_shape_trans; [apply same_shape_amap|].
    eapply same_shape_trans; [apply same_shape_amap|].
    apply same_shape_tabulate; exact H.
  - eapply same_shape_trans; [apply same_shape_amap|].
    eapply same_shape_trans; [apply same_shape_amap|].
    apply same_shape_tabulate; exact H.
Qed.


Lemma same_shape_subtr_gaussian (probe : array) (sigma : num) :
  is_ndarray probe = true -> same_shape (subtr_gaussian probe sigma) probe.
Proof.
  intro H. unfold subtr_gaussian, div_s, neg.
  eapply same_shape_trans; [apply same_shape_amap|].
  eapply same_shape_trans; [apply same_shape_amap|].
  eapply same_shape_trans; [apply same_shape_amap|].
  now apply same_shape_radial2.
Qed.

Lemma same_shape_logistic_annulus (probe : array) (radius tw bw : num) :
  is_ndarray probe = true ->
  same_shape (logistic_annulus probe radius tw bw) probe.
Proof.
  intro H. unfold logistic_annulus, edge_distance, logistic.
  unfold sub, s_div, s_add, div_s, s_mul, sub_s.
  eapply same_shape_trans; [apply same_shape_azip|].
  - repeat (eapply same_shape_trans; [apply same_shape_amap|]).
    apply same_shape_sym.
    repeat (eapply same_shape_trans; [apply same_shape_amap|]).
    apply same_shape_refl.
  - repeat (eapply same_shape_trans; [apply same_shape_amap|]).
    now apply same_shape_radial2.
Qed.


End KernelMass.

(** ** Kernels: degenerate normalisations *)

Section KernelDegenerate.

Context {E : Externals}.

(** Lines 114-117 and 154-156 on a probe whose normalisation is 0/0. *)
Lemma template_of_zero_probe (probe bg : array) :
  same_shape bg probe -> every zero_or_nan probe ->
  sub (div_s probe (np_sum probe)) (div_s bg (np_sum bg)) = nan_like probe.
Proof.
  intros Hs Hz. rewrite (normalise_degenerate _ Hz). apply sub_nan_l.
  eapply same_shape_trans; [apply same_shape_sym; exact Hs|].
  apply same_shape_sym, same_shape_amap.
Qed.

(** Claim C6 (as the code has it).  For every all-zero probe the
    normalisation [probe/np.sum(probe)] is NumPy's array division, which
    raises nothing.  [get_probe_kernel] and
    [get_probe_kernel_logistictrench] return, whatever their parameters,
    the shift primitive applied to an array that is NaN at every pixel.
    [get_probe_kernel_subtrgaussian] returns the same whenever
    [sigma_probe_scale**2] is in the float64 range; otherwise it raises
    the OverflowError of the float power of line 115, which is not an
    error of the normalisation. *)
Theorem zero_probe_kernels_are_nan
  (probe : array) (sigma_probe_scale radius trenchwidth blurwidth : num) :
  is_ndarray probe = true ->
  all_zero probe = true ->
  let xCoM := fst (get_CoM probe) in
  let yCoM := snd (get_CoM probe) in
  let nan_kernel := get_shifted_ar (nan_like probe) (fneg xCoM) (fneg yCoM) in
  get_probe_kernel probe = Ok nan_kernel
  /\ get_probe_kernel_subtrgaussian probe sigma_probe_scale
     = (if square_overflows sigma_probe_scale
        then Raise OverflowError
        else Ok nan_kernel)
  /\ get_probe_kernel_logistictrench probe radius trenchwidth blurwidth
     = Ok nan_kernel.
Proof.
  intros Hnd Hz. apply all_zero_every in Hz. cbv zeta.
  unfold get_probe_kernel, get_probe_kernel_subtrgaussian,
    get_probe_kernel_logistictrench.
  destruct (get_CoM probe) as [xCoM yCoM]. cbn [fst snd].
  split; [|split].
  - now rewrite (normalise_degenerate _ Hz).
  - unfold subtrgaussian_template, float_pow2.
    destruct (square_overflows sigma_probe_scale); [reflexivity|].
    cbv zeta. rewrite template_of_zero_probe; auto.
    now apply same_shape_subtr_gaussian.
  - unfold logistictrench_template. rewrite template_of_zero_probe; auto.
    now apply same_shape_logistic_annulus.
Qed.

(** With a finite centre of mass every squared distance is a finite
    number that is not negative. *)
Lemma radial2_nonneg (probe : array) (x y : Qc) :
  get_CoM probe = (Fin x, Fin y) ->
  every (fun v => exists c, v = Fin c /\ (0 <= c)%Qc) (radial2 probe).
Proof.
  intro H. unfold radial2.
  change (shape probe) with (fst (shape probe), snd (shape probe)).
  cbv iota beta. rewrite H.
  unfold add, square, sub_s, meshgrid_qx, meshgrid_qy.
  apply every_azip with
    (P := fun v => exists d, v = Fin (d * d)%Qc)
    (Q := fun v => exists d, v = Fin (d * d)%Qc).
  - intros u v [d ->] [e ->]. eexists. split; [reflexivity|].
    apply Qcsum_squares_nonneg.
  - apply every_amap, every_amap, every_tabulate. intros i j.
    eexists. reflexivity.
  - apply every_amap, every_amap, every_tabulate. intros i j.
    eexists. reflexivity.
Qed.

(** One wall of the trench is finite at every pixel when the inputs are
    finite, [np.sqrt] is finite and [np.exp] is never negative. *)
Lemma logistic_finite (probe : array) (x y r b : Qc) :
  get_CoM probe = (Fin x, Fin y) ->
  b <> 0%Qc ->
  (forall q, is_finite (np_sqrt q) = true) ->
  (forall q, is_nonneg (np_exp q) = true) ->
  every (fun v => is_finite v = true)
    (logistic (edge_distance probe (Fin r)) (Fin b)).
Proof.
  intros HCoM Hb Hsqrt Hexp.
  unfold logistic, edge_distance, s_div, s_add, div_s, s_mul, sub_s.
  rewrite !amap_amap. apply every_amap.
  eapply every_impl; [|apply (radial2_nonneg _ _ _ HCoM)].
  intros v [c [-> Hc]]. cbv beta.
  assert (Hq : exists d, fsqrt (Fin c) = Fin d).
  { unfold fsqrt. pose proof (proj1 (Qcle_alt 0%Qc c) Hc) as Hcmp.
    specialize (Hsqrt c).
    destruct (np_sqrt c) as [d| |]; try discriminate.
    exists d. destruct (0 ?= c)%Qc; try reflexivity.
    exfalso. apply Hcmp. reflexivity. }
  destruct Hq as [d ->].
  unfold of_nat. cbn [fsub fneg fadd fmul].
  rewrite fdiv_fin by assumption. cbn [fexp].
  match goal with |- context [np_exp ?z] =>
    specialize (Hexp z); destruct (np_exp z) as [e|[|]|] end;
    try discriminate; [|reflexivity].
  unfold one. cbn [fadd]. rewrite fdiv_fin; [reflexivity|].
  apply Qcone_plus_nonneg. apply (proj2 (Qcle_alt 0%Qc e)).
  cbn [is_nonneg] in Hexp. destruct (0 ?= e)%Qc; congruence.
Qed.

Lemma logistic_annulus_zero_width (probe : array) (radius blurwidth : num) :
  logistic_annulus probe radius zero blurwidth
  = amap (fun v => fsub v v) (logistic (edge_distance probe radius) blurwidth).
Proof.
  unfold logistic_annulus. cbv zeta.
  replace (sub_s (edge_distance probe radius) zero)
    with (edge_distance probe radius)
    by (symmetry; apply amap_id; exact fsub_zero_r).
  apply azip_diag.
Qed.

(** A trench of width zero: the annulus normalises to 0/0 and the kernel
    is NaN at every pixel before it is shifted. *)
Lemma zero_width_template (probe : array) (radius blurwidth : num) :
  is_ndarray probe = true ->
  logistictrench_template probe radius zero blurwidth = nan_like probe.
Proof.
  intro Hnd. unfold logistictrench_template. cbv zeta.
  assert (Hz : every zero_or_nan
                 (logistic_annulus probe radius zero blurwidth)).
  { rewrite logistic_annulus_zero_width. apply every_amap, every_all.
    intro v. rewrite fsub_self. destruct (is_finite v); [now left|now right]. }
  rewrite (normalise_degenerate _ Hz), sub_nan_r.
  - apply nan_like_same_shape, same_shape_amap.
  - eapply same_shape_trans; [apply same_shape_amap|].
    apply same_shape_sym. now apply same_shape_logistic_annulus.
Qed.

(** Claim C7 (as the code has it).  For a trench of width zero, with a
    finite centre of mass, radius and non-zero blur width, the logistic
    annulus is exactly zero at every pixel, so its sum is zero; its
    normalisation is then 0/0, and the kernel that is returned is the
    shift primitive applied to an array that is NaN at every pixel, not
    to the normalised probe. *)
Theorem zero_width_trench_kernel_is_nan (probe : array) (x y r b : Qc) :
  is_ndarray probe = true ->
  get_CoM probe = (Fin x, Fin y) ->
  is_zero b = false ->
  (forall q, is_finite (np_sqrt q) = true) ->
  (forall q, is_nonneg (np_exp q) = true) ->
  logistic_annulus probe (Fin r) zero (Fin b) = zeros_like probe
  /\ np_sum (logistic_annulus probe (Fin r) zero (Fin b)) = zero
  /\ get_probe_kernel_logistictrench probe (Fin r) zero (Fin b)
     = Ok (get_shifted_ar (nan_like probe) (fneg (Fin x)) (fneg (Fin y))).
Proof.
  intros Hnd HCoM Hb Hsqrt Hexp. apply is_zero_false in Hb.
  assert (Ha : logistic_annulus probe (Fin r) zero (Fin b) = zeros_like probe).
  { rewrite logistic_annulus_zero_width.
    rewrite (amap_ext_every (fun v => fsub v v) (fun _ => zero)).
    - apply amap_const_same_shape.
      pose proof (same_shape_logistic_annulus probe (Fin r) zero (Fin b) Hnd)
        as Hs.
      rewrite logistic_annulus_zero_width in Hs.
      eapply same_shape_trans; [|exact Hs].
      apply same_shape_sym, same_shape_amap.
    - eapply every_impl; [|eapply logistic_finite; eassumption].
      intros v Hv. cbv beta. rewrite fsub_self, Hv. reflexivity. }
  split; [exact Ha|]. split.
  - rewrite Ha. apply np_sum_zeros_like.
  - unfold get_probe_kernel_logistictrench. rewrite HCoM.
    now rewrite zero_width_template.
Qed.


End KernelDegenerate.

(** ** The averaging loop *)

Section AveragingLoop.

Context {E : Externals}.

Lemma slice_in_scan (dc : DataCube) (i j : nat) :
  slice dc i j
  = if in_scan dc (i, j) then Ok (pattern dc i j) else Raise IndexError.
Proof. reflexivity. Qed.

(** One iteration: the position is computed from [R_Nx] alone, the read
    is logged, and the update is line 44. *)
Lemma average_step_run (n : nat) (probe : array) (w : world) :
  0 < R_Nx (cube w) ->
  average_step n probe w
  = let pos := scan_position (cube w) n in
    (match slice (cube w) (fst pos) (snd pos) with
     | Ok curr_DP =>
         Ok (running_average n probe (aligned_to probe curr_DP))
     | Raise e => Raise e
     end,
     logged w pos).
Proof.
  intro H. unfold average_step, bind, attr, lift, int_truediv, py_mod, read4D,
    ret, scan_position, logged.
  destruct (R_Nx (cube w) =? 0) eqn:Hz.
  - apply Nat.eqb_eq in Hz. lia.
  - cbn [fst snd]. unfold aligned_to.
    destruct (slice (cube w) (n / R_Nx (cube w)) (n mod R_Nx (cube w)))
      as [curr_DP|e]; [|reflexivity].
    destruct (get_shift probe curr_DP); reflexivity.
Qed.

Lemma for_each_app {A} (l1 l2 : list nat) (body : nat -> A -> M A) (acc : A)
  (w : world) :
  for_each (l1 ++ l2) body acc w
  = match for_each l1 body acc w with
    | (Ok acc', w') => for_each l2 body acc' w'
    | (Raise e, w') => (Raise e, w')
    end.
Proof.
  revert acc w. induction l1 as [|n l1 IH]; intros acc w; simpl.
  - reflexivity.
  - unfold bind. destruct (body n acc w) as [[acc'|e] w']; [apply IH|].
    reflexivity.
Qed.

(** What the loop reads: it logs the positions of a prefix of its
    indices, all of them when it completes, and leaves the datacube as
    it was. *)
Lemma for_each_trace (ns : list nat) (probe : array) (w : world) :
  0 < R_Nx (cube w) ->
  exists k,
    k <= length ns
    /\ cube (snd (for_each ns average_step probe w)) = cube w
    /\ reads (snd (for_each ns average_step probe w))
       = reads w ++ map (scan_position (cube w)) (firstn k ns)
    /\ (forall p, fst (for_each ns average_step probe w) = Ok p ->
                  k = length ns).
Proof.
  revert probe w. induction ns as [|n ns IH]; intros probe w H.
  - exists 0. simpl. rewrite app_nil_r. repeat split; auto.
  - cbn [for_each]. unfold bind. rewrite average_step_run by assumption.
    cbv zeta.
    destruct (slice (cube w) (fst (scan_position (cube w) n))
                (snd (scan_position (cube w) n))) as [curr|e].
    + destruct (IH (running_average n probe (aligned_to probe curr))
                  (logged w (scan_position (cube w) n)) H)
        as [k [Hk [Hc [Hr Hd]]]].
      exists (S k). cbn [length firstn map]. repeat split.
      * lia.
      * exact Hc.
      * rewrite Hr. cbn [logged cube reads]. now rewrite <- app_assoc.
      * intros p Hp. f_equal. eapply Hd. exact Hp.
    + exists 1. cbn [length firstn map fst snd logged cube reads].
      split; [lia|]. split; [reflexivity|]. split; [reflexivity|].
      intros p Hp. discriminate Hp.
Qed.

(** While the positions stay inside the scan, the loop goes on. *)
Lemma for_each_in_scan (ns : list nat) (probe : array) (w : world) :
  0 < R_Nx (cube w) ->
  (forall n, In n ns -> in_scan (cube w) (scan_position (cube w) n) = true) ->
  exists p, fst (for_each ns average_step probe w) = Ok p.
Proof.
  revert probe w. induction ns as [|n ns IH]; intros probe w H Hin.
  - exists probe. reflexivity.
  - cbn [for_each]. unfold bind. rewrite average_step_run by assumption.
    cbv zeta. rewrite slice_in_scan.
    rewrite <- surjective_pairing, Hin by (now left).
    apply IH; [exact H|]. intros m Hm. apply Hin. now right.
Qed.

(** The first position outside the scan stops it with an IndexError. *)
Lemma for_each_leaves_scan (k len : nat) (probe : array) (w : world) :
  0 < R_Nx (cube w) ->
  k < len ->
  (forall n, 1 <= n < 1 + k ->
             in_scan (cube w) (scan_position (cube w) n) = true) ->
  in_scan (cube w) (scan_position (cube w) (1 + k)) = false ->
  fst (for_each (seq 1 len) average_step probe w) = Raise IndexError.
Proof.
  intros H Hk Hin Hout.
  replace len with (k + (1 + (len - k - 1))) by lia.
  rewrite seq_app, for_each_app.
  destruct (for_each_in_scan (seq 1 k) probe w H) as [p Hp].
  { intros n Hn. apply in_seq in Hn. apply Hin. lia. }
  destruct (for_each_trace (seq 1 k) probe w H) as [k' [_ [Hc _]]].
  destruct (for_each (seq 1 k) average_step probe w) as [[p'|e] w'];
    [|discriminate Hp].
  cbn [snd] in Hc. rewrite seq_app. cbn [seq app for_each]. unfold bind.
  rewrite average_step_run by (now rewrite Hc). cbv zeta.
  rewrite slice_in_scan, <- surjective_pairing, Hc, Hout. reflexivity.
Qed.

End AveragingLoop.

(** ** The probe averager *)

Section Averager.

Context {E : Externals}.

Lemma accumulate_probe_run (dc : DataCube) :
  run accumulate_probe dc
  = match slice dc 0 0 with
    | Ok probe => for_each (range 1 (R_N dc)) average_step probe (start dc)
    | Raise e => (Raise e, start dc)
    end.
Proof.
  unfold run, accumulate_probe, bind, read4D, attr, logged, start.
  cbn [cube reads app]. destruct (slice dc 0 0); reflexivity.
Qed.

Lemma get_average_probe_run (mask_threshold : num)
  (mask_expansion mask_opening : Z) (dc : DataCube) :
  run (get_average_probe_from_vacuum_scan mask_threshold mask_expansion
         mask_opening) dc
  = match run accumulate_probe dc with
    | (Ok probe, w) =>
        (match probe_mask probe mask_threshold mask_expansion mask_opening with
         | Ok mask => Ok (mul_mask probe mask)
         | Raise e => Raise e
         end, w)
    | (Raise e, w) => (Raise e, w)
    end.
Proof.
  unfold run, get_average_probe_from_vacuum_scan, bind, lift, ret.
  destruct (accumulate_probe _) as [[probe|e] w]; [|reflexivity].
  destruct (probe_mask _ _ _ _); reflexivity.
Qed.

Lemma result_get_average_probe (mask_threshold : num)
  (mask_expansion mask_opening : Z) (dc : DataCube) :
  result (get_average_probe_from_vacuum_scan mask_threshold mask_expansion
            mask_opening) dc
  = match result accumulate_probe dc with
    | Ok probe =>
        match probe_mask probe mask_threshold mask_expansion mask_opening with
        | Ok mask => Ok (mul_mask probe mask)
        | Raise e => Raise e
        end
    | Raise e => Raise e
    end.
Proof.
  unfold result. rewrite get_average_probe_run.
  destruct (run accumulate_probe dc) as [[probe|e] w]; reflexivity.
Qed.

Lemma in_scan_origin (dc : DataCube) :
  in_scan dc (0, 0) = true -> 0 < R_Nx dc /\ 0 < R_Ny dc.
Proof.
  unfold in_scan. cbn [fst snd]. intro H. apply andb_prop in H.
  destruct H as [H1 H2]. apply Nat.ltb_lt in H1, H2. auto.
Qed.

Lemma scan_position_0 (dc : DataCube) : scan_position dc 0 = (0, 0).
Proof.
  unfold scan_position. destruct (R_Nx dc) as [|k]; [reflexivity|].
  now rewrite Nat.Div0.div_0_l, Nat.Div0.mod_0_l.
Qed.

(** The reads of a run of the accumulation, in order. *)
Lemma accumulate_probe_reads (dc : DataCube) :
  exists k,
    k <= R_N dc - 1
    /\ reads_of accumulate_probe dc
       = (0, 0) :: map (scan_position dc) (firstn k (seq 1 (R_N dc - 1)))
    /\ cube_after accumulate_probe dc = dc
    /\ (forall p, result accumulate_probe dc = Ok p ->
                  0 < R_N dc /\ k = R_N dc - 1).
Proof.
  unfold reads_of, cube_after, result. rewrite accumulate_probe_run.
  rewrite slice_in_scan. destruct (in_scan dc (0, 0)) eqn:Hin.
  - apply in_scan_origin in Hin. destruct Hin as [Hx Hy].
    destruct (for_each_trace (range 1 (R_N dc)) (pattern dc 0 0) (start dc) Hx)
      as [k [Hk [Hc [Hr Hd]]]].
    unfold range in *. rewrite length_seq in *.
    exists k. repeat split; auto.
    + unfold R_N. nia.
    + apply Hd in H. exact H.
  - exists 0. cbn [firstn map fst snd start reads cube].
    repeat split; try lia; discriminate.
Qed.

Lemma get_average_probe_reads (mask_threshold : num)
  (mask_expansion mask_opening : Z) (dc : DataCube) :
  reads_of (get_average_probe_from_vacuum_scan mask_threshold mask_expansion
              mask_opening) dc
  = reads_of accumulate_probe dc
  /\ cube_after (get_average_probe_from_vacuum_scan mask_threshold
                   mask_expansion mask_opening) dc
     = cube_after accumulate_probe dc
  /\ (forall out,
        result (get_average_probe_from_vacuum_scan mask_threshold
                  mask_expansion mask_opening) dc = Ok out ->
        exists probe, result accumulate_probe dc = Ok probe).
Proof.
  unfold reads_of, cube_after, result. rewrite get_average_probe_run.
  destruct (run accumulate_probe dc) as [[probe|e] w]; cbn [fst snd].
  - repeat split. intros out _. now exists probe.
  - repeat split. intros out H. discriminate H.
Qed.

(** Claim C5.  The pattern read for the linear scan index [n] is the one
    at [(n // R_Nx, n % R_Nx)], the row count serving both as divisor and
    as modulus: every read the function makes is at that position for its
    index, a run that returns has read every index below [R_Nx * R_Ny]
    there, in order, and iteration [n] consumes the pattern stored
    there. *)
Theorem scan_positions_use_row_count
  (mask_threshold : num) (mask_expansion mask_opening : Z) (dc : DataCube) :
  let f := get_average_probe_from_vacuum_scan mask_threshold mask_expansion
             mask_opening in
  (forall n pos,
      nth_error (reads_of f dc) n = Some pos ->
      pos = (n / R_Nx dc, n mod R_Nx dc))
  /\ (forall out,
        result f dc = Ok out ->
        reads_of f dc
        = map (fun n => (n / R_Nx dc, n mod R_Nx dc))
              (seq 0 (R_Nx dc * R_Ny dc)))
  /\ (forall n probe w,
        cube w = dc -> 1 <= n < R_Nx dc * R_Ny dc ->
        fst (average_step n probe w)
        = match slice dc (n / R_Nx dc) (n mod R_Nx dc) with
          | Ok curr_DP =>
              Ok (running_average n probe (aligned_to probe curr_DP))
          | Raise e => Raise e
          end).
Proof.
  cbv zeta.
  destruct (get_average_probe_reads mask_threshold mask_expansion
              mask_opening dc) as [Hr [_ Hres]].
  destruct (accumulate_probe_reads dc) as [k [Hk [Hreads [_ Hdone]]]].
  rewrite Hr, Hreads. repeat split.
  - intros [|n] pos H.
    + cbn in H. injection H as <-. symmetry. apply scan_position_0.
    + cbn [nth_error] in H. rewrite nth_error_map, nth_error_firstn in H.
      destruct (n <? k); [|discriminate H].
      rewrite nth_error_seq in H.
      destruct (n <? R_N dc - 1); [|discriminate H].
      cbn in H. injection H as <-. reflexivity.
  - intros out H. apply Hres in H. destruct H as [probe H].
    apply Hdone in H. destruct H as [Hpos ->].
    rewrite firstn_all2 by (rewrite length_seq; lia).
    fold (R_N dc). replace (R_N dc) with (S (R_N dc - 1)) at 2 by lia.
    cbn [seq map]. f_equal. symmetry. apply scan_position_0.
  - intros n probe w <- Hn.
    rewrite average_step_run by nia. reflexivity.
Qed.

End Averager.

(** ** The running average *)

Section RunningAverage.

Context {E : Externals}.

(** The shift primitive returns an array of the shape it was given. *)
Hypothesis get_shifted_ar_shape :
  forall ar x y, is_ndarray ar = true -> same_shape (get_shifted_ar ar x y) ar.

Lemma first_update_entry (p : Qc) (s : num) :
  fadd (fdiv (fmul (Fin p) (of_nat (1 - 1))) (of_nat 1)) (fdiv s (of_nat 1)) = s.
Proof.
  rewrite !fdiv_one_r. cbn [Nat.sub of_nat fmul].
  change (Q2Qc (inject_Z (Z.of_nat 0))) with 0%Qc.
  rewrite Qcmult_0_r. apply fadd_zero_l.
Qed.

(** Line 44 at [n = 1]: the finite probe is multiplied by zero, and what
    remains is the shifted pattern. *)
Lemma first_update (probe shifted : array) :
  same_shape probe shifted -> all_finite probe = true ->
  running_average 1 probe shifted = shifted.
Proof.
  intros Hs Hf. unfold running_average, add, div_s, mul_s.
  rewrite amap_amap, azip_amap.
  apply azip_snd with (P := fun x => is_finite x = true).
  - exact Hs.
  - now apply every_forallb.
  - intros [p| |] s Hp; try discriminate. apply first_update_entry.
Qed.

Lemma is_ndarray_pattern (dc : DataCube) (i j : nat) :
  is_ndarray (pattern dc i j) = true.
Proof. apply is_ndarray_tabulate. Qed.

Lemma same_shape_pattern (dc : DataCube) (i j i' j' : nat) :
  same_shape (pattern dc i j) (pattern dc i' j').
Proof.
  unfold pattern, tabulate.
  apply same_shape_uniform with (L := Q_Ny dc).
  - apply Forall_map, Forall_forall. intros k _.
    now rewrite length_map, length_seq.
  - apply Forall_map, Forall_forall. intros k _.
    now rewrite length_map, length_seq.
  - now rewrite !length_map.
Qed.

Lemma same_shape_aligned_to (probe curr_DP : array) :
  is_ndarray curr_DP = true -> same_shape (aligned_to probe curr_DP) curr_DP.
Proof.
  intro H. unfold aligned_to. destruct (get_shift probe curr_DP).
  now apply get_shifted_ar_shape.
Qed.

Lemma scan_position_later (dc : DataCube) (n : nat) :
  0 < R_Nx dc -> 1 <= n -> scan_position dc n <> (0, 0).
Proof.
  intros Hx Hn H. unfold scan_position in H. injection H as Hd Hm.
  pose proof (Nat.div_mod_eq n (R_Nx dc)) as Heq. rewrite Hd, Hm in Heq. lia.
Qed.

Lemma slice_same_but_first (dc dc' : DataCube) (pos : nat * nat) :
  same_but_first dc dc' -> pos <> (0, 0) ->
  slice dc (fst pos) (snd pos) = slice dc' (fst pos) (snd pos).
Proof.
  intros [Hx [Hy [Hqx [Hqy Hd]]]] Hpos. unfold slice, in_scan, pattern, tabulate.
  cbn [fst snd]. rewrite Hx, Hy, Hqx, Hqy.
  destruct ((fst pos <? R_Nx dc') && (snd pos <? R_Ny dc')); [|reflexivity].
  f_equal. apply map_ext. intro x. apply map_ext. intro y.
  apply Hd. now rewrite <- surjective_pairing.
Qed.

(** The loop sees the datacube only through the patterns it reads. *)
Lemma for_each_same_slices (ns : list nat) (probe : array) (w w' : world) :
  0 < R_Nx (cube w) ->
  R_Nx (cube w) = R_Nx (cube w') ->
  (forall n, In n ns ->
     let pos := scan_position (cube w) n in
     slice (cube w) (fst pos) (snd pos) = slice (cube w') (fst pos) (snd pos)) ->
  fst (for_each ns average_step probe w)
  = fst (for_each ns average_step probe w').
Proof.
  revert probe w w'. induction ns as [|n ns IH]; intros probe w w' Hx Hxx Hs.
  - reflexivity.
  - cbn [for_each]. unfold bind.
    rewrite !average_step_run by lia. cbv zeta.
    assert (Hp : scan_position (cube w') n = scan_position (cube w) n).
    { unfold scan_position. now rewrite Hxx. }
    rewrite Hp, <- (Hs n (or_introl eq_refl)).
    destruct (slice (cube w) _ _) as [curr|e]; [|reflexivity].
    apply IH; auto. intros m Hm. apply Hs. now right.
Qed.

(** After the first read and the first update the accumulator is the
    aligned pattern #1, and the rest of the loop starts from it. *)
Lemma accumulate_probe_from_second (dc : DataCube) :
  2 <= R_Nx dc -> 2 <= R_Ny dc ->
  all_finite (pattern dc 0 0) = true ->
  run accumulate_probe dc
  = for_each (range 2 (R_N dc)) average_step
      (aligned_to (pattern dc 0 0) (pattern dc 0 1))
      {| cube := dc; reads := [(0, 0); (0, 1)] |}.
Proof.
  intros Hx Hy Hf. rewrite accumulate_probe_run, slice_in_scan.
  assert (H00 : in_scan dc (0, 0) = true).
  { unfold in_scan. cbn [fst snd]. apply andb_true_intro.
    split; apply Nat.ltb_lt; lia. }
  assert (H01 : in_scan dc (0, 1) = true).
  { unfold in_scan. cbn [fst snd]. apply andb_true_intro.
    split; apply Nat.ltb_lt; lia. }
  rewrite H00. unfold range.
  replace (R_N dc - 1) with (S (R_N dc - 2)) by (unfold R_N; nia).
  cbn [seq for_each]. unfold bind.
  rewrite average_step_run by (cbn; lia). cbv zeta.
  assert (Hp : scan_position (cube (start dc)) 1 = (0, 1)).
  { unfold scan_position. cbn [start cube].
    rewrite Nat.div_small, Nat.mod_small by lia. reflexivity. }
  rewrite Hp. cbn [fst snd start cube]. rewrite slice_in_scan, H01.
  rewrite first_update; [reflexivity| |exact Hf].
  eapply same_shape_trans; [apply same_shape_pattern|].
  apply same_shape_sym, same_shape_aligned_to, is_ndarray_pattern.
Qed.

Lemma pattern_same_but_first (dc dc' : DataCube) (i j : nat) :
  same_but_first dc dc' -> (i, j) <> (0, 0) -> pattern dc i j = pattern dc' i j.
Proof.
  intros [Hx [Hy [Hqx [Hqy Hd]]]] Hpos. unfold pattern, tabulate.
  rewrite Hqx, Hqy. apply map_ext. intro x. apply map_ext. intro y.
  now apply Hd.
Qed.

(** Claim C1 (as the code has it).  In a scan with at least two rows and
    two columns and a finite pattern #0: every iteration [n >= 1] whose
    read succeeds replaces the accumulator by
    [probe*(n-1)/n + shifted/n]; after the first update the accumulator
    is exactly the aligned pattern #1, and the rest of the loop starts
    from it.  The intensities of pattern #0 therefore have weight zero,
    and pattern #0 reaches the result only as the reference of the first
    shift estimate: a datacube that differs in pattern #0 alone and gives
    the same first shift estimate gives the same result. *)
Theorem first_pattern_only_anchors_the_average (dc : DataCube) :
  2 <= R_Nx dc -> 2 <= R_Ny dc ->
  all_finite (pattern dc 0 0) = true ->
  let shifted1 := aligned_to (pattern dc 0 0) (pattern dc 0 1) in
  (forall n probe w curr_DP,
      cube w = dc -> 1 <= n ->
      slice dc (n / R_Nx dc) (n mod R_Nx dc) = Ok curr_DP ->
      fst (average_step n probe w)
      = Ok (running_average n probe (aligned_to probe curr_DP)))
  /\ running_average 1 (pattern dc 0 0) shifted1 = shifted1
  /\ run accumulate_probe dc
     = for_each (range 2 (R_N dc)) average_step shifted1
         {| cube := dc; reads := [(0, 0); (0, 1)] |}
  /\ (forall dc' mask_threshold mask_expansion mask_opening,
        same_but_first dc dc' ->
        all_finite (pattern dc' 0 0) = true ->
        get_shift (pattern dc' 0 0) (pattern dc' 0 1)
        = get_shift (pattern dc 0 0) (pattern dc 0 1) ->
        result (get_average_probe_from_vacuum_scan mask_threshold
                  mask_expansion mask_opening) dc'
        = result (get_average_probe_from_vacuum_scan mask_threshold
                    mask_expansion mask_opening) dc).
Proof.
  intros Hx Hy Hf. cbv zeta. split; [|split; [|split]].
  - intros n probe w curr_DP <- Hn Hs.
    rewrite average_step_run by lia. cbv zeta.
    unfold scan_position. cbn [fst snd]. now rewrite Hs.
  - apply first_update; [|exact Hf].
    eapply same_shape_trans; [apply same_shape_pattern|].
    apply same_shape_sym, same_shape_aligned_to, is_ndarray_pattern.
  - now apply accumulate_probe_from_second.
  - intros dc' thr ex op Hsame Hf' Hshift.
    rewrite !result_get_average_probe.
    assert (Hres : result accumulate_probe dc' = result accumulate_probe dc).
    { destruct Hsame as [Hrx [Hry Hrest]].
      unfold result.
      rewrite (accumulate_probe_from_second dc Hx Hy Hf).
      rewrite (accumulate_probe_from_second dc') by (assumption || lia).
      assert (Hsame : same_but_first dc dc') by (split; [|split]; assumption).
      assert (HP1 : pattern dc' 0 1 = pattern dc 0 1).
      { symmetry. apply pattern_same_but_first; [exact Hsame|discriminate]. }
      rewrite HP1 in *.
      assert (Ha : aligned_to (pattern dc' 0 0) (pattern dc 0 1)
                   = aligned_to (pattern dc 0 0) (pattern dc 0 1)).
      { unfold aligned_to. now rewrite Hshift. }
      rewrite Ha. unfold R_N. rewrite <- Hrx, <- Hry. fold (R_N dc).
      symmetry. apply for_each_same_slices.
      - cbn [cube]. lia.
      - cbn [cube]. exact Hrx.
      - intros n Hn. cbv zeta. cbn [cube].
        apply slice_same_but_first; [exact Hsame|].
        apply scan_position_later; [lia|].
        unfold range in Hn. apply in_seq in Hn. lia. }
    now rewrite Hres.
Qed.

End RunningAverage.

(** ** The mask *)

Section Masking.

Context {E : Externals}.

Lemma nth_error_map2 {A B C} (f : A -> B -> C) (l : list A) (m : list B)
  (n : nat) :
  nth_error (map2 f l m) n
  = match nth_error l n, nth_error m n with
    | Some x, Some y => Some (f x y)
    | _, _ => None
    end.
Proof.
  revert m n. induction l as [|x l IH]; intros [|y m] [|n]; simpl;
    try reflexivity.
  - now destruct (nth_error l n).
  - apply IH.
Qed.

Lemma item_azip {A B C} (f : A -> B -> C) (a : list (list A))
  (b : list (list B)) (i j : nat) :
  item (azip f a b) i j
  = match item a i j, item b i j with
    | Some x, Some y => Some (f x y)
    | _, _ => None
    end.
Proof.
  unfold item, azip. rewrite nth_error_map2.
  destruct (nth_error a i) as [r|], (nth_error b i) as [r'|]; try reflexivity.
  - apply nth_error_map2.
  - now destruct (nth_error r j).
Qed.

Lemma item_amap {A B} (f : A -> B) (a : list (list A)) (i j : nat) :
  item (amap f a) i j = option_map f (item a i j).
Proof.
  unfold item, amap. rewrite nth_error_map.
  destruct (nth_error a i) as [r|]; [apply nth_error_map|reflexivity].
Qed.

(** Claim C4 (as the code has it).  Whatever
    [get_average_probe_from_vacuum_scan] returns is the accumulated probe
    times the mask
    [binary_dilation(binary_opening(probe > max(probe)*mask_threshold,
    mask_opening), mask_expansion)]: the threshold test is the strict
    [>] and the opening is applied before the dilation.  A pixel whose
    final mask bit is unset holds exactly zero in the output where the
    accumulated probe is a finite number, and NaN where the accumulated
    probe is an infinity or NaN. *)
Theorem returned_probe_is_masked
  (mask_threshold : num) (mask_expansion mask_opening : Z) (dc : DataCube)
  (out : array) :
  result (get_average_probe_from_vacuum_scan mask_threshold mask_expansion
            mask_opening) dc = Ok out ->
  exists probe peak,
    result accumulate_probe dc = Ok probe
    /\ np_max probe = Ok peak
    /\ let threshold := fmul peak mask_threshold in
       let above := gt_s probe threshold in
       let mask :=
         binary_dilation (binary_opening above mask_opening) mask_expansion in
       out = mul_mask probe mask
       /\ (forall i j v,
             item probe i j = Some v ->
             item above i j = Some (fgt v threshold))
       /\ (forall i j a t,
             item probe i j = Some (Fin a) -> threshold = Fin t ->
             (item above i j = Some true <-> (t < a)%Qc))
       /\ (forall i j a,
             item probe i j = Some (Fin a) ->
             item mask i j = Some false ->
             item out i j = Some zero)
       /\ (forall i j v,
             item probe i j = Some v -> is_finite v = false ->
             item mask i j = Some false ->
             item out i j = Some NaN).
Proof.
  intro H. rewrite result_get_average_probe in H.
  destruct (result accumulate_probe dc) as [probe|e]; [|discriminate H].
  unfold probe_mask in H.
  destruct (np_max probe) as [peak|e] eqn:Hp; [|discriminate H].
  injection H as <-. exists probe, peak. cbv zeta.
  split; [reflexivity|]. split; [exact Hp|]. split; [reflexivity|].
  split; [|split; [|split]].
  - intros i j v Hv. unfold gt_s. now rewrite item_amap, Hv.
  - intros i j a t Ha Ht. unfold gt_s. rewrite item_amap, Ha, Ht.
    cbn [option_map]. rewrite <- fgt_fin.
    split; [intro H; now injection H | intro H; now rewrite H].
  - intros i j a Ha Hm. unfold mul_mask.
    rewrite item_azip, Ha, Hm. f_equal. apply fmul_false.
  - intros i j v Hv Hn Hm. unfold mul_mask.
    rewrite item_azip, Hv, Hm. f_equal.
    destruct v as [a|s|]; [discriminate Hn|reflexivity|reflexivity].
Qed.

(** [np.max] of an array with at least one entry. *)
Lemma np_max_nonempty (a : array) :
  concat a <> [] -> exists peak, np_max a = Ok peak.
Proof.
  unfold np_max. destruct (concat a) as [|x l]; [congruence|].
  intros _. eexists. reflexivity.
Qed.

Lemma pattern_nonempty (dc : DataCube) (i j : nat) :
  0 < Q_Nx dc -> 0 < Q_Ny dc -> concat (pattern dc i j) <> [].
Proof.
  unfold pattern, tabulate. intros Hx Hy.
  destruct (Q_Nx dc) as [|nx]; [lia|]. destruct (Q_Ny dc) as [|ny]; [lia|].
  cbn. discriminate.
Qed.

(** Claim C9 (as the code has it).  Without any scan position the first
    read, [data4D[0,0,:,:]], raises IndexError.  With exactly one scan
    position the loop body never runs, only position (0,0) is read, and
    the function returns that pattern times its mask (the pattern having
    at least one pixel). *)
Theorem fewer_than_two_scan_positions
  (mask_threshold : num) (mask_expansion mask_opening : Z) (dc : DataCube) :
  let f := get_average_probe_from_vacuum_scan mask_threshold mask_expansion
             mask_opening in
  (R_N dc = 0 -> result f dc = Raise IndexError)
  /\ (R_N dc = 1 -> 0 < Q_Nx dc -> 0 < Q_Ny dc ->
      exists mask,
        probe_mask (pattern dc 0 0) mask_threshold mask_expansion mask_opening
        = Ok mask
        /\ result f dc = Ok (mul_mask (pattern dc 0 0) mask)
        /\ reads_of f dc = [(0, 0)]).
Proof.
  cbv zeta. split.
  - intro H0. rewrite result_get_average_probe. unfold result.
    rewrite accumulate_probe_run, slice_in_scan.
    assert (Hout : in_scan dc (0, 0) = false).
    { unfold in_scan, R_N in *. cbn [fst snd].
      destruct (R_Nx dc), (R_Ny dc); try reflexivity. discriminate H0. }
    now rewrite Hout.
  - intros H1 Hqx Hqy.
    assert (Hx : R_Nx dc = 1 /\ R_Ny dc = 1).
    { apply Nat.eq_mul_1. exact H1. }
    destruct Hx as [Hx Hy].
    assert (Hrun : run accumulate_probe dc = (Ok (pattern dc 0 0), start dc)).
    { rewrite accumulate_probe_run, slice_in_scan. unfold in_scan.
      cbn [fst snd]. rewrite Hx, Hy, H1. reflexivity. }
    destruct (np_max_nonempty _ (pattern_nonempty dc 0 0 Hqx Hqy)) as [peak Hp].
    unfold probe_mask. rewrite Hp. eexists. split; [reflexivity|].
    unfold result, reads_of. rewrite get_average_probe_run, Hrun.
    unfold probe_mask. rewrite Hp. split; reflexivity.
Qed.

End Masking.

(** ** The stubs *)

(** Claim C10.  [get_average_probe_from_ROI] and [get_synthetic_probe]
    return [None] whatever they are given: they raise nothing, index no
    scan position and leave the datacube as it was. *)
Theorem stub_probes_return_None (T : Type) (args : list T) (dc : DataCube) :
  (result (get_average_probe_from_ROI args) dc = Ok None
   /\ ~ raises (result (get_average_probe_from_ROI args) dc)
   /\ reads_of (get_average_probe_from_ROI args) dc = []
   /\ cube_after (get_average_probe_from_ROI args) dc = dc)
  /\ (result (get_synthetic_probe args) dc = Ok None
      /\ ~ raises (result (get_synthetic_probe args) dc)
      /\ reads_of (get_synthetic_probe args) dc = []
      /\ cube_after (get_synthetic_probe args) dc = dc).
Proof.
  split; (split; [reflexivity|]; split; [|split; reflexivity]);
    intros [e He]; discriminate He.
Qed.

(** ** Which scans the averager can index *)

Section ScanShape.

Context {E : Externals}.

Lemma square_scan_in_scan (dc : DataCube) (n : nat) :
  R_Nx dc = R_Ny dc -> n < R_N dc ->
  in_scan dc (scan_position dc n) = true.
Proof.
  intros Hsq Hn. unfold in_scan, scan_position, R_N in *. cbn [fst snd].
  rewrite <- Hsq in *. apply andb_true_intro. split; apply Nat.ltb_lt.
  - apply Nat.Div0.div_lt_upper_bound. exact Hn.
  - apply Nat.mod_upper_bound. nia.
Qed.

(** On a square scan every read is inside the datacube and the
    accumulation completes. *)
Lemma square_scan_accumulates (dc : DataCube) :
  R_Nx dc = R_Ny dc -> 0 < R_Nx dc ->
  exists probe, result accumulate_probe dc = Ok probe.
Proof.
  intros Hsq Hx. unfold result. rewrite accumulate_probe_run, slice_in_scan.
  rewrite <- (scan_position_0 dc), square_scan_in_scan
    by (auto; unfold R_N; nia).
  apply for_each_in_scan; [exact Hx|].
  intros n Hn. apply in_seq in Hn. cbn [start cube].
  apply square_scan_in_scan; [exact Hsq|]. lia.
Qed.

(** A scan that is not square makes the loop index outside the
    datacube: the function raises IndexError whatever the patterns. *)
Lemma non_square_scan_raises
  (mask_threshold : num) (mask_expansion mask_opening : Z) (dc : DataCube) :
  R_Nx dc <> R_Ny dc ->
  result (get_average_probe_from_vacuum_scan mask_threshold mask_expansion
            mask_opening) dc = Raise IndexError.
Proof.
  intro Hne. rewrite result_get_average_probe.
  assert (Hacc : result accumulate_probe dc = Raise IndexError);
    [|now rewrite Hacc].
  unfold result. rewrite accumulate_probe_run, slice_in_scan.
  destruct (in_scan dc (0, 0)) eqn:H00; [|reflexivity].
  apply in_scan_origin in H00. destruct H00 as [Hx Hy]. unfold range.
  destruct (Nat.lt_ge_cases (R_Nx dc) (R_Ny dc)) as [Hlt|Hge].
  - (* more columns than rows: the row index runs past [R_Nx] *)
    apply for_each_leaves_scan with (k := R_Nx dc * R_Nx dc - 1).
    + exact Hx.
    + unfold R_N. nia.
    + intros n Hn. cbn [start cube].
      unfold in_scan, scan_position. cbn [fst snd].
      apply andb_true_intro. split; apply Nat.ltb_lt.
      * apply Nat.Div0.div_lt_upper_bound. nia.
      * pose proof (Nat.mod_upper_bound n (R_Nx dc)). lia.
    + cbn [start cube]. unfold in_scan, scan_position. cbn [fst snd].
      replace (1 + (R_Nx dc * R_Nx dc - 1)) with (R_Nx dc * R_Nx dc) by nia.
      rewrite Nat.div_mul by lia. rewrite Nat.ltb_irrefl. reflexivity.
  - (* more rows than columns: the column index runs past [R_Ny] *)
    apply for_each_leaves_scan with (k := R_Ny dc - 1).
    + exact Hx.
    + unfold R_N. nia.
    + intros n Hn. cbn [start cube].
      unfold in_scan, scan_position. cbn [fst snd].
      rewrite Nat.div_small, Nat.mod_small by lia.
      apply andb_true_intro. split; apply Nat.ltb_lt; lia.
    + cbn [start cube]. unfold in_scan, scan_position. cbn [fst snd].
      replace (1 + (R_Ny dc - 1)) with (R_Ny dc) by lia.
      rewrite Nat.mod_small by lia.
      rewrite Nat.ltb_irrefl. apply andb_false_r.
Qed.

End ScanShape.

(** ** The averager returns on square scans *)

Section Totality.

Context {E : Externals}.

Hypothesis get_shifted_ar_shape :
  forall ar x y, is_ndarray ar = true -> same_shape (get_shifted_ar ar x y) ar.

Lemma same_shape_running_average (n : nat) (probe shifted : array) :
  same_shape probe shifted ->
  same_shape (running_average n probe shifted) probe.
Proof.
  intro H. unfold running_average, add, div_s, mul_s.
  eapply same_shape_trans; [apply same_shape_azip|].
  - repeat (eapply same_shape_trans; [apply same_shape_amap|]).
    eapply same_shape_trans; [exact H|].
    apply same_shape_sym, same_shape_amap.
  - repeat (eapply same_shape_trans; [apply same_shape_amap|]).
    apply same_shape_refl.
Qed.

(** The accumulator keeps the shape of the patterns. *)
Lemma for_each_keeps_shape (ns : list nat) (probe p : array) (w : world) :
  0 < R_Nx (cube w) ->
  same_shape probe (pattern (cube w) 0 0) ->
  fst (for_each ns average_step probe w) = Ok p ->
  same_shape p (pattern (cube w) 0 0).
Proof.
  revert probe w. induction ns as [|n ns IH]; intros probe w Hx Hs Hp.
  - cbn in Hp. injection Hp as <-. exact Hs.
  - cbn [for_each] in Hp. unfold bind in Hp.
    rewrite average_step_run in Hp by exact Hx. cbv zeta in Hp.
    rewrite slice_in_scan in Hp.
    destruct (in_scan (cube w) _); [|discriminate Hp].
    apply IH in Hp; [exact Hp|exact Hx|]. cbn [logged cube].
    eapply same_shape_trans; [apply same_shape_running_average|exact Hs].
    eapply same_shape_trans; [exact Hs|].
    eapply same_shape_trans; [apply same_shape_pattern|].
    apply same_shape_sym.
    unfold aligned_to. destruct (get_shift probe _).
    apply get_shifted_ar_shape, is_ndarray_pattern.
Qed.

(** On a square scan of non-empty patterns the function returns a
    probe. *)
Lemma square_scan_returns
  (mask_threshold : num) (mask_expansion mask_opening : Z) (dc : DataCube) :
  R_Nx dc = R_Ny dc -> 0 < R_Nx dc -> 0 < Q_Nx dc -> 0 < Q_Ny dc ->
  exists out,
    result (get_average_probe_from_vacuum_scan mask_threshold mask_expansion
              mask_opening) dc = Ok out.
Proof.
  intros Hsq Hx Hqx Hqy.
  destruct (square_scan_accumulates dc Hsq Hx) as [probe Hacc].
  assert (Hs : same_shape probe (pattern dc 0 0)).
  { unfold result in Hacc. rewrite accumulate_probe_run, slice_in_scan in Hacc.
    destruct (in_scan dc (0, 0)); [|discriminate Hacc].
    apply (for_each_keeps_shape _ _ _ (start dc)) in Hacc;
      [exact Hacc|exact Hx|apply same_shape_refl]. }
  assert (Hne : concat probe <> []).
  { intro Hnil. apply (pattern_nonempty dc 0 0 Hqx Hqy).
    eapply same_shape_concat_nil; [exact Hs|exact Hnil]. }
  destruct (np_max_nonempty probe Hne) as [peak Hp].
  rewrite result_get_average_probe, Hacc. unfold probe_mask. rewrite Hp.
  eexists. reflexivity.
Qed.

End Totality.

(** ** Identical, aligned patterns *)

Section IdenticalPatterns.

Context {E : Externals}.

(** The estimator finds no shift between a pattern and itself, and a
    shift by nothing changes nothing. *)
Hypothesis get_shift_same : forall ar, get_shift ar ar = (zero, zero).
Hypothesis get_shifted_ar_zero : forall ar, get_shifted_ar ar zero zero = ar.

Lemma same_update_entry (n : nat) (p : Qc) :
  1 <= n ->
  fadd (fdiv (fmul (Fin p) (of_nat (n - 1))) (of_nat n))
       (fdiv (Fin p) (of_nat n)) = Fin p.
Proof.
  intro Hn. unfold of_nat. cbn [fmul].
  rewrite !fdiv_fin by (apply of_nat_inj_0; lia). cbn [fadd].
  f_equal. rewrite of_nat_pred by exact Hn.
  field. apply of_nat_inj_0. lia.
Qed.

(** Line 44 on a probe and a shifted pattern that are the same finite
    array. *)
Lemma same_update (n : nat) (P : array) :
  1 <= n -> all_finite P = true -> running_average n P P = P.
Proof.
  intros Hn Hf. unfold running_average, add, div_s, mul_s.
  rewrite amap_amap, azip_amap, azip_diag.
  rewrite (amap_ext_every _ (fun x => x)).
  - apply amap_id. reflexivity.
  - apply every_forallb in Hf. eapply every_impl; [|exact Hf].
    intros [p| |] Hp; try discriminate. now apply same_update_entry.
Qed.

Lemma for_each_identical (ns : list nat) (P : array) (w : world) :
  0 < R_Nx (cube w) -> identical (cube w) P -> all_finite P = true ->
  (forall n, In n ns ->
     1 <= n /\ in_scan (cube w) (scan_position (cube w) n) = true) ->
  fst (for_each ns average_step P w) = Ok P.
Proof.
  revert w. induction ns as [|n ns IH]; intros w Hx Hid Hf Hin.
  - reflexivity.
  - cbn [for_each]. unfold bind. rewrite average_step_run by exact Hx.
    cbv zeta. rewrite slice_in_scan, <- surjective_pairing.
    destruct (Hin n (or_introl eq_refl)) as [Hn Hs]. rewrite Hs.
    assert (Hp : pattern (cube w) (fst (scan_position (cube w) n))
                   (snd (scan_position (cube w) n)) = P).
    { unfold in_scan in Hs. apply andb_prop in Hs. destruct Hs as [H1 H2].
      apply Nat.ltb_lt in H1, H2. now apply Hid. }
    rewrite Hp. unfold aligned_to.
    rewrite get_shift_same, get_shifted_ar_zero, same_update by assumption.
    apply IH; auto. intros m Hm. apply Hin. now right.
Qed.

(** On a square scan of identical, aligned, finite patterns the
    averager returns that pattern times its mask. *)
Lemma identical_square_scan_average
  (mask_threshold : num) (mask_expansion mask_opening : Z) (dc : DataCube)
  (P : array) :
  R_Nx dc = R_Ny dc -> 0 < R_Nx dc -> identical dc P ->
  all_finite P = true -> concat P <> [] ->
  exists mask,
    probe_mask P mask_threshold mask_expansion mask_opening = Ok mask
    /\ result (get_average_probe_from_vacuum_scan mask_threshold
                 mask_expansion mask_opening) dc = Ok (mul_mask P mask).
Proof.
  intros Hsq Hx Hid Hf Hne.
  assert (Hacc : result accumulate_probe dc = Ok P).
  { unfold result. rewrite accumulate_probe_run, slice_in_scan.
    rewrite <- (scan_position_0 dc), square_scan_in_scan
      by (auto; unfold R_N; nia).
    rewrite Hid by lia.
    apply for_each_identical; auto.
    intros n Hn. apply in_seq in Hn. cbn [start cube]. split; [lia|].
    apply square_scan_in_scan; [exact Hsq|]. lia. }
  destruct (np_max_nonempty P Hne) as [peak Hp].
  rewrite result_get_average_probe, Hacc. unfold probe_mask. rewrite Hp.
  eexists. split; reflexivity.
Qed.

End IdenticalPatterns.

(** ** Outcome and shape of a run of the averager *)

Section Outcome.

Context {E : Externals}.

Hypothesis get_shifted_ar_shape :
  forall ar x y, is_ndarray ar = true -> same_shape (get_shifted_ar ar x y) ar.

(** The accumulated probe has the shape of the patterns. *)
Lemma accumulated_probe_shape (dc : DataCube) (probe : array) :
  result accumulate_probe dc = Ok probe -> same_shape probe (pattern dc 0 0).
Proof.
  unfold result. rewrite accumulate_probe_run, slice_in_scan.
  destruct (in_scan dc (0, 0)) eqn:H00; [|discriminate].
  apply in_scan_origin in H00. intro H.
  apply (for_each_keeps_shape get_shifted_ar_shape _ _ _ (start dc)) in H;
    [exact H|tauto|apply same_shape_refl].
Qed.

Lemma pattern_empty (dc : DataCube) (i j : nat) :
  Q_Nx dc = 0 \/ Q_Ny dc = 0 -> concat (pattern dc i j) = [].
Proof.
  unfold pattern, tabulate. intros [H|H]; rewrite H; [reflexivity|].
  cbn [seq map]. induction (seq 0 (Q_Nx dc)); [reflexivity|assumption].
Qed.

(** Property X1.  How a run ends is decided by the two shapes alone,
    when the shift primitive returns arrays of the shape it was given.  A
    scan that is not square, or has no position, ends in IndexError; a
    square scan of patterns without a pixel ends in ValueError (the
    maximum of a zero-size array); every other scan returns a probe. *)
Theorem averager_outcome_by_shape
  (mask_threshold : num) (mask_expansion mask_opening : Z) (dc : DataCube) :
  let f := get_average_probe_from_vacuum_scan mask_threshold mask_expansion
             mask_opening in
  (R_Nx dc <> R_Ny dc \/ R_Nx dc = 0 -> result f dc = Raise IndexError)
  /\ (R_Nx dc = R_Ny dc -> 0 < R_Nx dc -> Q_Nx dc = 0 \/ Q_Ny dc = 0 ->
      result f dc = Raise ValueError)
  /\ (R_Nx dc = R_Ny dc -> 0 < R_Nx dc -> 0 < Q_Nx dc -> 0 < Q_Ny dc ->
      exists out, result f dc = Ok out).
Proof.
  cbv zeta. split; [|split].
  - intros H. destruct (Nat.eq_dec (R_Nx dc) (R_Ny dc)) as [Heq|Hne].
    + destruct H as [H|H]; [contradiction|].
      rewrite result_get_average_probe. unfold result.
      rewrite accumulate_probe_run, slice_in_scan. unfold in_scan.
      cbn [fst snd]. rewrite H. reflexivity.
    + now apply non_square_scan_raises.
  - intros Hsq Hx Hq.
    destruct (square_scan_accumulates dc Hsq Hx) as [probe Hacc].
    rewrite result_get_average_probe, Hacc.
    assert (Hnil : concat probe = []).
    { apply (same_shape_concat_nil (pattern dc 0 0)).
      - apply same_shape_sym. now apply accumulated_probe_shape.
      - now apply pattern_empty. }
    unfold probe_mask, np_max. rewrite Hnil. reflexivity.
  - intros Hsq Hx Hqx Hqy.
    now apply (square_scan_returns get_shifted_ar_shape).
Qed.

End Outcome.

Section OutputShape.

Context {E : Externals}.

Hypothesis get_shifted_ar_shape :
  forall ar x y, is_ndarray ar = true -> same_shape (get_shifted_ar ar x y) ar.
Hypothesis binary_opening_shape :
  forall m k, is_ndarray m = true -> same_shape (binary_opening m k) m.
Hypothesis binary_dilation_shape :
  forall m k, is_ndarray m = true -> same_shape (binary_dilation m k) m.

Lemma Forall_length_same_shape {A B} (L : nat) (a : list (list A))
  (b : list (list B)) :
  same_shape a b -> Forall (fun r => length r = L) b ->
  Forall (fun r => length r = L) a.
Proof.
  induction 1 as [|r r' a b Hr _ IH]; intro Hb; constructor.
  - inversion Hb; subst. congruence.
  - apply IH. now inversion Hb.
Qed.

(** An array of the shape of an ndarray is an ndarray. *)
Lemma is_ndarray_same_shape {A B} (a : list (list A)) (b : list (list B)) :
  same_shape a b -> is_ndarray b = true -> is_ndarray a = true.
Proof.
  intros Hs Hb. apply is_ndarray_uniform in Hb.
  apply (Forall_length_same_shape _ _ _ Hs) in Hb.
  unfold is_ndarray. apply forallb_forall. intros r Hr. apply Nat.eqb_eq.
  rewrite Forall_forall in Hb. rewrite (Hb r Hr).
  destruct a as [|r0 a]; [contradiction|]. cbn [hd]. symmetry.
  apply Hb. now left.
Qed.

(** Property X2.  Whatever the averager returns has the shape of the
    diffraction patterns of the datacube, provided the shift and the two
    morphological primitives return arrays of the shape they were
    given. *)
Theorem returned_probe_has_pattern_shape
  (mask_threshold : num) (mask_expansion mask_opening : Z) (dc : DataCube)
  (out : array) :
  result (get_average_probe_from_vacuum_scan mask_threshold mask_expansion
            mask_opening) dc = Ok out ->
  same_shape out (pattern dc 0 0)
  /\ length out = Q_Nx dc
  /\ Forall (fun row => length row = Q_Ny dc) out.
Proof.
  intro H. rewrite result_get_average_probe in H.
  destruct (result accumulate_probe dc) as [probe|e] eqn:Hacc;
    [|discriminate H].
  apply (accumulated_probe_shape get_shifted_ar_shape) in Hacc.
  unfold probe_mask in H. destruct (np_max probe) as [peak|e]; [|discriminate H].
  injection H as <-.
  assert (Hnd : is_ndarray probe = true).
  { eapply is_ndarray_same_shape; [exact Hacc|apply is_ndarray_pattern]. }
  set (above := gt_s probe (fmul peak mask_threshold)).
  assert (Ha : same_shape above probe) by apply same_shape_amap.
  assert (Hand : is_ndarray above = true)
    by (eapply is_ndarray_same_shape; eassumption).
  assert (Ho : same_shape (binary_opening above mask_opening) above)
    by now apply binary_opening_shape.
  assert (Hond : is_ndarray (binary_opening above mask_opening) = true)
    by (eapply is_ndarray_same_shape; eassumption).
  assert (Hd : same_shape
                 (binary_dilation (binary_opening above mask_opening)
                    mask_expansion)
                 (binary_opening above mask_opening))
    by now apply binary_dilation_shape.
  assert (Hout : same_shape
                   (mul_mask probe
                      (binary_dilation (binary_opening above mask_opening)
                         mask_expansion))
                   (pattern dc 0 0)).
  { eapply same_shape_trans; [apply same_shape_azip|exact Hacc].
    apply same_shape_sym.
    eapply same_shape_trans; [exact Hd|].
    eapply same_shape_trans; [exact Ho|exact Ha]. }
  split; [exact Hout|]. split.
  - rewrite (same_shape_length _ _ Hout). unfold pattern, tabulate.
    now rewrite length_map, length_seq.
  - apply (Forall_length_same_shape _ _ _ Hout).
    unfold pattern, tabulate. apply Forall_map, Forall_forall. intros i _.
    now rewrite length_map, length_seq.
Qed.

End OutputShape.

(** ** The accumulated probe in closed form *)

Section MeanOfAligned.

Context {E : Externals}.

Hypothesis get_shifted_ar_shape :
  forall ar x y, is_ndarray ar = true -> same_shape (get_shifted_ar ar x y) ar.
Hypothesis get_shifted_ar_finite :
  forall ar x y, all_finite ar = true -> all_finite (get_shifted_ar ar x y) = true.

Lemma azip_ext_every {A B C} (P : A -> Prop) (Q : B -> Prop) (f g : A -> B -> C)
  (a : list (list A)) (b : list (list B)) :
  (forall x y, P x -> Q y -> f x y = g x y) ->
  every P a -> every Q b -> azip f a b = azip g a b.
Proof.
  unfold every, azip. intros Hfg Ha. revert b.
  induction Ha as [|r a Hr _ IH]; intros b Hb; [reflexivity|].
  destruct Hb as [|r' b Hr' Hb]; [reflexivity|]. cbn [map2].
  f_equal; [|now apply IH]. clear - Hfg Hr Hr'. revert r' Hr'.
  induction Hr as [|x r Hx _ IHr]; intros r' Hr'; [reflexivity|].
  destruct Hr' as [|y r' Hy Hr']; [reflexivity|]. cbn [map2].
  f_equal; auto.
Qed.

Lemma amap_azip {A B C D} (h : C -> D) (f : A -> B -> C) (a : list (list A))
  (b : list (list B)) :
  amap h (azip f a b) = azip (fun x y => h (f x y)) a b.
Proof.
  unfold amap, azip. revert b. induction a as [|r a IH]; intros [|r' b];
    cbn [map2 map]; try reflexivity.
  f_equal; [|apply IH]. clear. revert r'.
  induction r as [|x r IHr]; intros [|y r']; cbn [map2 map]; try reflexivity.
  f_equal. apply IHr.
Qed.

Lemma mean_step_entry (n : nat) (x y : Qc) :
  2 <= n ->
  fadd (fdiv (fmul (fdiv (Fin x) (of_nat (n - 1))) (of_nat (n - 1))) (of_nat n))
       (fdiv (Fin y) (of_nat n))
  = fdiv (fadd (Fin x) (Fin y)) (of_nat n).
Proof.
  intro Hn. unfold of_nat. cbn [fadd].
  rewrite (fdiv_fin x) by (apply of_nat_inj_0; lia). cbn [fmul].
  rewrite !fdiv_fin by (apply of_nat_inj_0; lia). cbn [fadd].
  f_equal. field. split; apply of_nat_inj_0; lia.
Qed.

(** Line 44 on the mean of [n-1] arrays and one more array. *)
Lemma mean_step (n : nat) (T s : array) :
  2 <= n -> all_finite T = true -> all_finite s = true ->
  running_average n (div_s T (of_nat (n - 1))) s = div_s (add T s) (of_nat n).
Proof.
  intros Hn HT Hs. unfold running_average, add, div_s, mul_s.
  rewrite !amap_amap, azip_amap, amap_azip.
  apply azip_ext_every with (P := fun x => is_finite x = true)
                            (Q := fun y => is_finite y = true).
  - intros [x| |] [y| |] Hx Hy; try discriminate. now apply mean_step_entry.
  - now apply every_forallb.
  - now apply every_forallb.
Qed.

Lemma all_finite_add (a b : array) :
  all_finite a = true -> all_finite b = true -> all_finite (add a b) = true.
Proof.
  intros Ha Hb. apply every_forallb. apply every_forallb in Ha, Hb.
  unfold add. eapply every_azip; [|exact Ha|exact Hb].
  intros [x| |] [y| |] Hx Hy; try discriminate. reflexivity.
Qed.

Lemma add_zeros_like (like a : array) :
  same_shape like a -> add (zeros_like like) a = a.
Proof.
  intro H. unfold add. apply azip_snd with (P := fun x => x = zero).
  - eapply same_shape_trans; [apply same_shape_amap|exact H].
  - unfold zeros_like. apply every_amap, every_all. reflexivity.
  - intros x y ->. apply fadd_zero_l.
Qed.

Lemma length_aligned_run (dc : DataCube) (ns : list nat) (probe : array) :
  length (aligned_run dc ns probe) = length ns.
Proof.
  revert probe. induction ns as [|n ns IH]; intro probe; cbn; [|rewrite IH];
    reflexivity.
Qed.

(** The invariant of the loop: before iteration [n] the accumulator is
    the sum of the arrays aligned so far, divided by [n - 1]. *)
Lemma for_each_mean (dc : DataCube) (len n : nat) (acc T p : array) (w : world) :
  (forall i j, all_finite (pattern dc i j) = true) ->
  0 < R_Nx dc -> cube w = dc -> 2 <= n ->
  all_finite T = true -> acc = div_s T (of_nat (n - 1)) ->
  fst (for_each (seq n len) average_step acc w) = Ok p ->
  p = div_s (fold_left add (aligned_run dc (seq n len) acc) T)
        (of_nat (n - 1 + len)).
Proof.
  intros Hdata Hx. revert n acc T w.
  induction len as [|len IH]; intros n acc T w Hw Hn HT Hacc Hp.
  - cbn in Hp. injection Hp as <-. cbn [seq aligned_run fold_left].
    now rewrite Nat.add_0_r.
  - cbn [seq for_each] in Hp. unfold bind in Hp.
    rewrite average_step_run in Hp by (now rewrite Hw). cbv zeta in Hp.
    rewrite Hw, slice_in_scan in Hp.
    destruct (in_scan dc _); [|discriminate Hp].
    cbn [seq aligned_run fold_left].
    set (s := aligned_to acc
                (pattern dc (fst (scan_position dc n))
                   (snd (scan_position dc n)))) in *.
    assert (Hs : all_finite s = true).
    { unfold s, aligned_to. destruct (get_shift acc _).
      apply get_shifted_ar_finite, Hdata. }
    replace (n - 1 + S len) with (S n - 1 + len) by lia.
    apply (IH (S n) _ (add T s)
              (logged w (scan_position dc n))); auto.
    + now apply all_finite_add.
    + rewrite Hacc. replace (S n - 1) with n by lia. now apply mean_step.
Qed.

(** Property X3.  In a scan with at least two rows and two columns of
    finite patterns, with a shift primitive that keeps the shape and the
    finiteness of its argument, a loop that completes leaves the plain
    mean of the [R_N - 1] patterns #1, #2, ... as they were aligned
    (pattern #0 is not among them): the recurrence of line 44 keeps the
    accumulator equal to the sum of the aligned patterns divided by
    their number. *)
Theorem accumulated_probe_is_mean_of_aligned_patterns
  (dc : DataCube) (probe : array) :
  2 <= R_Nx dc -> 2 <= R_Ny dc ->
  (forall i j, all_finite (pattern dc i j) = true) ->
  result accumulate_probe dc = Ok probe ->
  let aligned := aligned_run dc (range 1 (R_N dc)) (pattern dc 0 0) in
  length aligned = R_N dc - 1
  /\ probe = array_mean aligned (pattern dc 0 0).
Proof.
  intros Hx Hy Hdata Hres. cbv zeta. split.
  - unfold range. now rewrite length_aligned_run, length_seq.
  - unfold result in Hres.
    rewrite (accumulate_probe_from_second get_shifted_ar_shape dc Hx Hy
               (Hdata 0 0)) in Hres.
    set (s1 := aligned_to (pattern dc 0 0) (pattern dc 0 1)) in *.
    assert (Hs1 : all_finite s1 = true).
    { unfold s1, aligned_to. destruct (get_shift _ _).
      apply get_shifted_ar_finite, Hdata. }
    assert (Hsh : same_shape (pattern dc 0 0) s1).
    { eapply same_shape_trans; [apply (same_shape_pattern dc 0 0 0 1)|].
      apply same_shape_sym. unfold s1, aligned_to. destruct (get_shift _ _).
      apply get_shifted_ar_shape, is_ndarray_pattern. }
    unfold range in Hres.
    apply (for_each_mean dc _ 2 s1 s1) in Hres; auto; try lia.
    + rewrite Hres. unfold array_mean, array_sum, range.
      rewrite length_aligned_run, length_seq.
      replace (R_N dc - 1) with (S (R_N dc - 2)) by (unfold R_N; nia).
      cbn [seq aligned_run fold_left].
      assert (Hp : scan_position dc 1 = (0, 1)).
      { unfold scan_position.
        rewrite Nat.div_small, Nat.mod_small by lia. reflexivity. }
      rewrite Hp. cbn [fst snd]. fold s1.
      rewrite (first_update (pattern dc 0 0) s1 Hsh (Hdata 0 0)).
      rewrite (add_zeros_like _ _ Hsh).
      f_equal.
    + cbn [Nat.sub]. symmetry. apply amap_id. apply fdiv_one_r.
Qed.

End MeanOfAligned.

(** ** Which patterns a returning run has read *)

Section ReadsOnce.

Context {E : Externals}.

Lemma scan_position_inj (dc : DataCube) (a b : nat) :
  0 < R_Nx dc -> scan_position dc a = scan_position dc b -> a = b.
Proof.
  intros Hx H. unfold scan_position in H. injection H as Hd Hm.
  rewrite (Nat.div_mod_eq a (R_Nx dc)), (Nat.div_mod_eq b (R_Nx dc)).
  now rewrite Hd, Hm.
Qed.

Lemma returning_run_reads
  (mask_threshold : num) (mask_expansion mask_opening : Z) (dc : DataCube)
  (out : array) :
  result (get_average_probe_from_vacuum_scan mask_threshold mask_expansion
            mask_opening) dc = Ok out ->
  R_Nx dc = R_Ny dc /\ 0 < R_Nx dc
  /\ reads_of (get_average_probe_from_vacuum_scan mask_threshold mask_expansion
                 mask_opening) dc
     = map (scan_position dc) (seq 0 (R_N dc)).
Proof.
  intro H.
  assert (Hsq : R_Nx dc = R_Ny dc).
  { destruct (Nat.eq_dec (R_Nx dc) (R_Ny dc)) as [Heq|Hne]; [exact Heq|].
    rewrite (non_square_scan_raises _ _ _ dc Hne) in H. discriminate H. }
  destruct (get_average_probe_reads mask_threshold mask_expansion
              mask_opening dc) as [Hr [_ Hres]].
  destruct (accumulate_probe_reads dc) as [k [Hk [Hreads [_ Hdone]]]].
  destruct (Hres out H) as [probe Hacc].
  destruct (Hdone probe Hacc) as [Hpos ->].
  split; [exact Hsq|]. split; [unfold R_N in Hpos; nia|].
  rewrite Hr, Hreads, firstn_all2 by (rewrite length_seq; lia).
  replace (R_N dc) with (S (R_N dc - 1)) at 2 by lia.
  cbn [seq map]. now rewrite scan_position_0.
Qed.

(** Property X4.  A run that returns has indexed every scan position of
    the datacube, and each of them exactly once: the log of its reads has
    no repetition, holds [R_Nx * R_Ny] positions, and a position is in it
    exactly when it lies inside the scan. *)
Theorem returning_run_reads_every_position_once
  (mask_threshold : num) (mask_expansion mask_opening : Z) (dc : DataCube)
  (out : array) :
  result (get_average_probe_from_vacuum_scan mask_threshold mask_expansion
            mask_opening) dc = Ok out ->
  let log := reads_of (get_average_probe_from_vacuum_scan mask_threshold
                         mask_expansion mask_opening) dc in
  NoDup log
  /\ length log = R_Nx dc * R_Ny dc
  /\ (forall i j, In (i, j) log <-> i < R_Nx dc /\ j < R_Ny dc).
Proof.
  intro H. cbv zeta.
  destruct (returning_run_reads _ _ _ _ _ H) as [Hsq [Hx ->]].
  split; [|split].
  - apply NoDup_map_NoDup_ForallPairs; [|apply seq_NoDup].
    intros a b _ _. now apply scan_position_inj.
  - now rewrite length_map, length_seq.
  - intros i j. rewrite in_map_iff. split.
    + intros [n [Hn Hin]]. apply in_seq in Hin.
      pose proof (square_scan_in_scan dc n Hsq) as Hs.
      rewrite Hn in Hs. unfold in_scan in Hs. cbn [fst snd] in Hs.
      specialize (Hs ltac:(lia)). apply andb_prop in Hs.
      destruct Hs as [H1 H2]. now apply Nat.ltb_lt in H1, H2.
    + intros [Hi Hj]. exists (R_Nx dc * i + j). split.
      * unfold scan_position. f_equal.
        -- symmetry. apply Nat.div_unique with j; lia.
        -- symmetry. apply Nat.mod_unique with i; lia.
      * apply in_seq. unfold R_N. nia.
Qed.

End ReadsOnce.

(** ** Averaging identical patterns *)

Section Idempotence.

Context {E : Externals}.

Hypothesis get_shift_same : forall ar, get_shift ar ar = (zero, zero).
Hypothesis get_shifted_ar_zero : forall ar, get_shifted_ar ar zero zero = ar.

(** Property X5.  In exact arithmetic averaging is idempotent on a
    square scan: when every scan position holds the same finite pattern,
    the estimator finds no shift between a pattern and itself and a shift
    by nothing changes nothing, the accumulated probe is that pattern,
    entry for entry, and the function returns it under its mask (or
    raises what the mask raises).  In float64 the update of line 44
    rounds, and the accumulated probe is that pattern up to rounding
    only. *)
Theorem identical_patterns_average_to_themselves
  (mask_threshold : num) (mask_expansion mask_opening : Z) (dc : DataCube)
  (P : array) :
  R_Nx dc = R_Ny dc -> 0 < R_Nx dc -> identical dc P ->
  all_finite P = true ->
  result accumulate_probe dc = Ok P
  /\ result (get_average_probe_from_vacuum_scan mask_threshold mask_expansion
               mask_opening) dc
     = match probe_mask P mask_threshold mask_expansion mask_opening with
       | Ok mask => Ok (mul_mask P mask)
       | Raise e => Raise e
       end.
Proof.
  intros Hsq Hx Hid Hf.
  assert (Hacc : result accumulate_probe dc = Ok P).
  { unfold result. rewrite accumulate_probe_run, slice_in_scan.
    rewrite <- (scan_position_0 dc), square_scan_in_scan
      by (auto; unfold R_N; nia).
    rewrite Hid by lia.
    apply (for_each_identical get_shift_same get_shifted_ar_zero); auto.
    intros n Hn. apply in_seq in Hn. cbn [start cube]. split; [lia|].
    apply square_scan_in_scan; [exact Hsq|]. lia. }
  split; [exact Hacc|]. now rewrite result_get_average_probe, Hacc.
Qed.

End Idempotence.

(** ** Shape of the kernels *)

Section KernelShape.

Context {E : Externals}.

Hypothesis get_shifted_ar_shape :
  forall ar x y, is_ndarray ar = true -> same_shape (get_shifted_ar ar x y) ar.

Lemma shifted_template_shape (template probe : array) (x y : num) :
  is_ndarray probe = true -> same_shape template probe ->
  same_shape (get_shifted_ar template x y) probe.
Proof.
  intros Hnd Hs. eapply same_shape_trans; [|exact Hs].
  apply get_shifted_ar_shape. eapply is_ndarray_same_shape; eassumption.
Qed.

Lemma same_shape_difference_of_normalised (probe bg : array) :
  same_shape bg probe ->
  same_shape (sub (div_s probe (np_sum probe)) (div_s bg (np_sum bg))) probe.
Proof.
  intro H. unfold sub.
  eapply same_shape_trans; [apply same_shape_azip|apply same_shape_amap].
  eapply same_shape_trans; [apply same_shape_amap|].
  apply same_shape_sym.
  eapply same_shape_trans; [apply same_shape_amap|exact H].
Qed.

(** Property X6.  On a rectangular probe [get_probe_kernel] and
    [get_probe_kernel_logistictrench] return, whatever their parameters,
    a kernel of the shape of the probe, and so does
    [get_probe_kernel_subtrgaussian] unless [sigma_probe_scale**2] is out
    of the float64 range, when it raises OverflowError; provided the
    shift primitive returns an array of the shape it was given. *)
Theorem kernels_have_probe_shape
  (probe : array) (sigma_probe_scale radius trenchwidth blurwidth : num) :
  is_ndarray probe = true ->
  (exists k, get_probe_kernel probe = Ok k /\ same_shape k probe)
  /\ (if square_overflows sigma_probe_scale
      then get_probe_kernel_subtrgaussian probe sigma_probe_scale
           = Raise OverflowError
      else exists k,
             get_probe_kernel_subtrgaussian probe sigma_probe_scale = Ok k
             /\ same_shape k probe)
  /\ (exists k, get_probe_kernel_logistictrench probe radius trenchwidth
                  blurwidth = Ok k
                /\ same_shape k probe).
Proof.
  intro Hnd.
  unfold get_probe_kernel, get_probe_kernel_subtrgaussian,
    get_probe_kernel_logistictrench.
  destruct (get_CoM probe) as [xCoM yCoM].
  split; [|split].
  - eexists. split; [reflexivity|].
    apply shifted_template_shape; [exact Hnd|]. apply same_shape_amap.
  - unfold subtrgaussian_template, float_pow2.
    destruct (square_overflows sigma_probe_scale); [reflexivity|].
    cbv zeta. eexists. split; [reflexivity|].
    apply shifted_template_shape; [exact Hnd|].
    apply same_shape_difference_of_normalised.
    now apply same_shape_subtr_gaussian.
  - eexists. split; [reflexivity|].
    apply shifted_template_shape; [exact Hnd|].
    unfold logistictrench_template.
    apply same_shape_difference_of_normalised.
    now apply same_shape_logistic_annulus.
Qed.

End KernelShape.

(** ** Rescaling the probe *)

Section ScaleInvariance.

Context {E : Externals}.

Local Open Scope Qc_scope.

Lemma fadd_fin_inv (x y : num) (s : Qc) :
  fadd x y = Fin s -> is_finite x = true /\ is_finite y = true.
Proof.
  destruct x as [a|t|], y as [b|u|]; cbn; try discriminate; auto.
  destruct (Bool.eqb t u); discriminate.
Qed.

Lemma sum_list_fin_inv (l : list num) (s : Qc) :
  sum_list l = Fin s -> Forall (fun x => is_finite x = true) l.
Proof.
  unfold sum_list. revert s. induction l as [|x l IH]; intros s H.
  - constructor.
  - cbn [fold_right] in H. destruct (fadd_fin_inv _ _ _ H) as [Hx Hl].
    constructor; [exact Hx|].
    destruct (fold_right fadd zero l) as [t| |] eqn:Ht; try discriminate.
    now apply (IH t).
Qed.

(** A finite sum has only finite terms. *)
Lemma np_sum_fin_inv (a : array) (s : Qc) :
  np_sum a = Fin s -> every (fun x => is_finite x = true) a.
Proof.
  unfold np_sum, every. intro H. apply sum_list_fin_inv in H.
  rewrite Forall_map in H. eapply Forall_impl; [|exact H].
  intros r Hr. cbv beta in Hr.
  destruct (sum_list r) as [t| |] eqn:Ht; try discriminate.
  now apply (sum_list_fin_inv _ t).
Qed.

Lemma sum_list_finite (l : list num) :
  Forall (fun x => is_finite x = true) l -> exists s, sum_list l = Fin s.
Proof.
  unfold sum_list. induction 1 as [|x l Hx _ [s IH]]; cbn [fold_right].
  - now exists 0.
  - rewrite IH. destruct x as [a| |]; try discriminate.
    now exists (a + s).
Qed.

Lemma np_sum_finite (a : array) :
  every (fun x => is_finite x = true) a -> exists s, np_sum a = Fin s.
Proof.
  intro H. unfold np_sum. apply sum_list_finite. apply Forall_map.
  eapply Forall_impl; [|exact H]. intros r Hr. cbv beta.
  destruct (sum_list_finite r Hr) as [s ->]. reflexivity.
Qed.

Lemma Qcinv_nonzero (c : Qc) : c <> 0 -> / c <> 0.
Proof.
  intros Hc H. pose proof (Qcmult_inv_r c Hc) as H1. rewrite H in H1.
  rewrite Qcmult_0_r in H1. discriminate H1.
Qed.

Lemma fmul_as_fdiv (x : num) (c : Qc) :
  c <> 0 -> fmul x (Fin c) = fdiv x (Fin (/ c)).
Proof.
  intro Hc. unfold fdiv.
  rewrite (proj2 (is_zero_false (/ c)) (Qcinv_nonzero c Hc)).
  do 2 f_equal. field. split; [exact Hc|apply Q_apart_0_1].
Qed.

(** [np.sum(a*c) = np.sum(a)*c] for a finite non-zero scalar. *)
Lemma np_sum_mul_s (a : array) (c : Qc) :
  c <> 0 -> np_sum (mul_s a (Fin c)) = fmul (np_sum a) (Fin c).
Proof.
  intro Hc. rewrite fmul_as_fdiv by exact Hc.
  rewrite <- np_sum_div_s by (now apply Qcinv_nonzero).
  f_equal. unfold mul_s, div_s. apply amap_ext_every, every_all.
  intro x. now apply fmul_as_fdiv.
Qed.

Lemma shape_amap {A B} (f : A -> B) (a : list (list A)) :
  shape (amap f a) = shape a.
Proof.
  unfold shape, amap. rewrite length_map. f_equal.
  destruct a as [|r a]; [reflexivity|]. cbn [map hd]. apply length_map.
Qed.

Lemma azip_amap_r {A B C D} (f : A -> C -> D) (h : B -> C)
  (a : list (list A)) (b : list (list B)) :
  azip f a (amap h b) = azip (fun x y => f x (h y)) a b.
Proof.
  rewrite <- (amap_id (fun x => x) a) at 1 by reflexivity.
  apply azip_amap.
Qed.

(** Normalising removes a common factor. *)
Lemma normalised_mul_s (probe : array) (c : Qc) :
  c <> 0 -> is_nonzero (np_sum probe) = true ->
  div_s (mul_s probe (Fin c)) (np_sum (mul_s probe (Fin c)))
  = div_s probe (np_sum probe).
Proof.
  intros Hc Hs. apply is_nonzero_fin in Hs. destruct Hs as [s [Hs Hn]].
  rewrite np_sum_mul_s, Hs by exact Hc. cbn [fmul].
  unfold div_s, mul_s. rewrite amap_amap. apply amap_ext_every.
  eapply every_impl; [|apply (np_sum_fin_inv _ _ Hs)].
  intros [a| |] Ha; try discriminate. cbn [fmul].
  assert (Hsc : s * c <> 0).
  { intro H. apply Qcmult_integral in H. tauto. }
  rewrite !fdiv_fin by assumption. f_equal. field. auto.
Qed.

Lemma radial2_mul_s (probe : array) (c : Qc) :
  get_CoM (mul_s probe (Fin c)) = get_CoM probe ->
  radial2 (mul_s probe (Fin c)) = radial2 probe.
Proof.
  intro H. unfold radial2, mul_s. rewrite shape_amap.
  unfold mul_s in H. now rewrite H.
Qed.

(** The second moment [qstd2] is a ratio of two sums that scale alike. *)
Lemma second_moment_mul_s (probe : array) (c x y : Qc) :
  c <> 0 -> is_nonzero (np_sum probe) = true ->
  get_CoM probe = (Fin x, Fin y) ->
  fdiv (np_sum (mul (radial2 probe) (mul_s probe (Fin c))))
       (np_sum (mul_s probe (Fin c)))
  = fdiv (np_sum (mul (radial2 probe) probe)) (np_sum probe).
Proof.
  intros Hc Hs HCoM.
  assert (Hs' := Hs). apply is_nonzero_fin in Hs'.
  destruct Hs' as [s [Hsum Hn]].
  pose proof (np_sum_fin_inv _ _ Hsum) as Hfin.
  assert (Hq : every (fun v => is_finite v = true) (radial2 probe)).
  { eapply every_impl; [|apply (radial2_nonneg _ _ _ HCoM)].
    intros v [d [-> _]]. reflexivity. }
  assert (Hmul : mul (radial2 probe) (mul_s probe (Fin c))
                 = mul_s (mul (radial2 probe) probe) (Fin c)).
  { unfold mul, mul_s. rewrite azip_amap_r, amap_azip.
    apply azip_ext_every with (P := fun v => is_finite v = true)
                              (Q := fun v => is_finite v = true);
      [|exact Hq|exact Hfin].
    intros [q| |] [a| |] Hq' Ha; try discriminate. cbn [fmul].
    f_equal. ring. }
  assert (Hprod : every (fun v => is_finite v = true)
                    (mul (radial2 probe) probe)).
  { unfold mul. eapply every_azip; [|exact Hq|exact Hfin].
    intros [q| |] [a| |] Hq' Ha; try discriminate. reflexivity. }
  destruct (np_sum_finite _ Hprod) as [t Ht].
  rewrite Hmul, !np_sum_mul_s, Ht, Hsum by exact Hc. cbn [fmul].
  assert (Hsc : s * c <> 0).
  { intro H. apply Qcmult_integral in H. tauto. }
  rewrite !fdiv_fin by assumption. f_equal. field. auto.
Qed.

(** Property X7.  The kernels do not depend on the overall intensity of
    the probe: multiplying a probe of finite non-zero sum by a finite
    non-zero factor that leaves its centre of mass where it was changes
    none of the three kernels (for the Gaussian one, with a finite centre
    of mass). *)
Theorem kernels_ignore_intensity_scale
  (probe : array) (c x y : Qc)
  (sigma_probe_scale radius trenchwidth blurwidth : num) :
  is_zero c = false ->
  is_nonzero (np_sum probe) = true ->
  get_CoM (mul_s probe (Fin c)) = get_CoM probe ->
  get_CoM probe = (Fin x, Fin y) ->
  get_probe_kernel (mul_s probe (Fin c)) = get_probe_kernel probe
  /\ get_probe_kernel_subtrgaussian (mul_s probe (Fin c)) sigma_probe_scale
     = get_probe_kernel_subtrgaussian probe sigma_probe_scale
  /\ get_probe_kernel_logistictrench (mul_s probe (Fin c)) radius trenchwidth
       blurwidth
     = get_probe_kernel_logistictrench probe radius trenchwidth blurwidth.
Proof.
  intros Hc Hs HCoM Hxy. apply is_zero_false in Hc.
  pose proof (normalised_mul_s probe c Hc Hs) as Hnorm.
  pose proof (radial2_mul_s probe c HCoM) as Hrad.
  pose proof (second_moment_mul_s probe c x y Hc Hs Hxy) as Hmom.
  unfold get_probe_kernel, get_probe_kernel_subtrgaussian,
    get_probe_kernel_logistictrench.
  rewrite HCoM. destruct (get_CoM probe) as [xCoM yCoM] eqn:HC.
  split; [|split].
  - now rewrite Hnorm.
  - unfold subtrgaussian_template. rewrite Hnorm.
    destruct (float_pow2 sigma_probe_scale) as [sigma2|e]; [|reflexivity].
    unfold subtr_gaussian. rewrite Hrad, Hmom. reflexivity.
  - unfold logistictrench_template, logistic_annulus, edge_distance.
    rewrite Hnorm, Hrad. reflexivity.
Qed.

End ScaleInvariance.

(** ** Degenerate inputs of the kernel generators *)

Section DegenerateKernels.

Context {E : Externals}.

Local Open Scope Qc_scope.

Lemma is_zero_num_zero (x : num) : is_zero_num x = true -> x = zero.
Proof.
  destruct x as [a| |]; try discriminate. cbn. intro H.
  unfold zero. f_equal. now apply is_zero_true.
Qed.

Lemma fdiv_by_zero (x : num) : is_finite (fdiv x zero) = false.
Proof.
  destruct x as [a|s|]; try reflexivity.
  unfold fdiv, zero. change (is_zero 0) with true. cbv iota.
  destruct (a ?= 0); reflexivity.
Qed.

Lemma fdiv_fin_by_zero (a : Qc) :
  fdiv (Fin a) zero
  = match a ?= 0 with Eq => NaN | Gt => Inf false | Lt => Inf true end.
Proof. reflexivity. Qed.

(** Property X8.  A probe whose entries cancel to the sum zero is
    normalised to an array without a single finite entry: a pixel holds
    [+inf] where the probe was positive, [-inf] where it was negative
    and NaN where it was zero, and [get_probe_kernel] returns the shift
    primitive applied to that array instead of raising. *)
Theorem cancelling_probe_is_normalised_to_infinities (probe : array) :
  is_zero_num (np_sum probe) = true ->
  every (fun v => is_finite v = false) (div_s probe (np_sum probe))
  /\ (forall i j a,
        item probe i j = Some (Fin a) ->
        item (div_s probe (np_sum probe)) i j
        = Some (match a ?= 0 with
                | Eq => NaN
                | Gt => Inf false
                | Lt => Inf true
                end))
  /\ get_probe_kernel probe
     = Ok (get_shifted_ar (div_s probe (np_sum probe))
             (fneg (fst (get_CoM probe))) (fneg (snd (get_CoM probe)))).
Proof.
  intro H. apply is_zero_num_zero in H. rewrite H. split; [|split].
  - unfold div_s. apply every_amap, every_all. apply fdiv_by_zero.
  - intros i j a Ha. unfold div_s. rewrite item_amap, Ha. reflexivity.
  - unfold get_probe_kernel. destruct (get_CoM probe). now rewrite H.
Qed.

Lemma square_nan_or_nonneg (x : num) : nan_or_nonneg (fmul x x).
Proof.
  destruct x as [a|s|]; [right|right|left]; cbn [fmul is_nonneg];
    try reflexivity.
  - pose proof (proj1 (Qcle_alt _ _) (Qcsquare_nonneg a)) as H.
    destruct (0 ?= a * a); congruence.
  - now destruct s.
Qed.

Lemma fadd_nan_or_nonneg (x y : num) :
  nan_or_nonneg x -> nan_or_nonneg y -> nan_or_nonneg (fadd x y).
Proof.
  intros [->|Hx] [->|Hy]; try (left; destruct x; reflexivity);
    try (now left).
  destruct x as [a|s|], y as [b|t|]; try discriminate;
    cbn [fadd is_nonneg] in *.
  - right. cbn [is_nonneg].
    assert (Ha : 0 <= a).
    { apply (proj2 (Qcle_alt _ _)). destruct (0 ?= a); congruence. }
    assert (Hb : 0 <= b).
    { apply (proj2 (Qcle_alt _ _)). destruct (0 ?= b); congruence. }
    assert (Hab : 0 <= a + b).
    { replace 0 with (0 + 0) by ring. now apply Qcplus_le_compat. }
    apply (proj1 (Qcle_alt _ _)) in Hab. destruct (0 ?= a + b); congruence.
  - now right.
  - now right.
  - destruct s, t; try discriminate. now right.
Qed.

Lemma radial2_nan_or_nonneg (probe : array) :
  every nan_or_nonneg (radial2 probe).
Proof.
  unfold radial2.
  change (shape probe) with (fst (shape probe), snd (shape probe)).
  cbv iota beta. destruct (get_CoM probe) as [xCoM yCoM].
  unfold add, square.
  apply every_azip with (P := nan_or_nonneg) (Q := nan_or_nonneg).
  - intros. now apply fadd_nan_or_nonneg.
  - apply every_amap, every_all. intro v. apply square_nan_or_nonneg.
  - apply every_amap, every_all. intro v. apply square_nan_or_nonneg.
Qed.

(** [2*qstd2*0**2] is zero, or NaN when [qstd2] is not finite. *)
Lemma zero_sigma_denominator (qstd2 : num) :
  zero_or_nan (fmul (fmul (of_nat 2) qstd2) (fmul zero zero)).
Proof.
  destruct qstd2 as [q|s|]; unfold of_nat, zero; cbn [fmul].
  - left. unfold zero. f_equal. ring.
  - right. now destruct s.
  - now right.
Qed.

Lemma zero_sigma_entry (v den : num) :
  nan_or_nonneg v -> zero_or_nan den ->
  zero_or_nan (fexp (fdiv (fneg v) den)).
Proof.
  intros Hv [->| ->]; [|right; now destruct v].
  destruct Hv as [->|Hv]; [now right|].
  destruct v as [a|s|]; try discriminate.
  - cbn [fneg]. rewrite fdiv_fin_by_zero.
    assert (Ha : 0 <= a).
    { apply (proj2 (Qcle_alt _ _)). cbn [is_nonneg] in Hv.
      destruct (0 ?= a); congruence. }
    apply Qcopp_le_compat in Ha.
    apply (proj1 (Qcle_alt _ _)) in Ha.
    change (- 0) with 0 in Ha.
    destruct (- a ?= 0); [now right|now left|congruence].
  - destruct s; [discriminate|]. now left.
Qed.

(** Property X9.  With [sigma_probe_scale = 0] the exponent of the
    Gaussian is a division by zero at every pixel, the normalised
    Gaussian is NaN everywhere, and [get_probe_kernel_subtrgaussian]
    raises nothing: it returns the shift primitive applied to an array
    that is NaN at every pixel, for every rectangular probe. *)
Theorem zero_sigma_kernel_is_nan (probe : array) :
  is_ndarray probe = true ->
  get_probe_kernel_subtrgaussian probe zero
  = Ok (get_shifted_ar (nan_like probe)
          (fneg (fst (get_CoM probe))) (fneg (snd (get_CoM probe)))).
Proof.
  intro Hnd.
  assert (Hg : every zero_or_nan (subtr_gaussian probe (fmul zero zero))).
  { unfold subtr_gaussian, div_s, neg. rewrite !amap_amap. apply every_amap.
    eapply every_impl; [|apply radial2_nan_or_nonneg].
    intros v Hv. cbv beta. apply zero_sigma_entry; [exact Hv|].
    apply zero_sigma_denominator. }
  unfold get_probe_kernel_subtrgaussian, subtrgaussian_template.
  destruct (get_CoM probe) as [xCoM yCoM]. cbn [fst snd].
  rewrite float_pow2_zero. cbv zeta.
  rewrite (normalise_degenerate _ Hg), sub_nan_r.
  - do 2 f_equal. apply nan_like_same_shape, same_shape_amap.
  - eapply same_shape_trans; [apply same_shape_amap|].
    apply same_shape_sym. now apply same_shape_subtr_gaussian.
Qed.

End DegenerateKernels.

(** ** The threshold of the mask *)

Section Threshold.

Context {E : Externals}.

Local Open Scope Qc_scope.

Lemma fmax_nan_r (x : num) : fmax x NaN = NaN.
Proof. now destruct x. Qed.

Lemma fold_left_fmax_nan (l : list num) : fold_left fmax l NaN = NaN.
Proof. induction l as [|x l IH]; [reflexivity|exact IH]. Qed.

Lemma fold_left_fmax_in_nan (l : list num) (x : num) :
  In NaN l -> fold_left fmax l x = NaN.
Proof.
  revert x. induction l as [|y l IH]; intros x H; [contradiction|].
  cbn [fold_left]. destruct H as [H|H].
  - subst y. rewrite fmax_nan_r. apply fold_left_fmax_nan.
  - now apply IH.
Qed.

Lemma item_in_concat {A} (a : list (list A)) (i j : nat) (v : A) :
  item a i j = Some v -> In v (concat a).
Proof.
  unfold item. destruct (nth_error a i) as [r|] eqn:Hr; [|discriminate].
  intro Hv. apply in_concat. exists r.
  split; eapply nth_error_In; eassumption.
Qed.

Lemma in_concat_item {A} (a : list (list A)) (v : A) :
  In v (concat a) -> exists i j, item a i j = Some v.
Proof.
  intro H. apply in_concat in H. destruct H as [r [Hr Hv]].
  apply In_nth_error in Hr, Hv. destruct Hr as [i Hi], Hv as [j Hj].
  exists i, j. unfold item. now rewrite Hi.
Qed.

(** [np.max] of an array that holds a NaN. *)
Lemma np_max_nan (probe : array) (i j : nat) :
  item probe i j = Some NaN -> np_max probe = Ok NaN.
Proof.
  intro H. apply item_in_concat in H. unfold np_max.
  destruct (concat probe) as [|x l]; [contradiction|].
  destruct H as [->|H]; [now rewrite fold_left_fmax_nan|].
  now rewrite fold_left_fmax_in_nan.
Qed.

(** Property X10.  One NaN pixel in the accumulated probe empties the
    thresholded mask: [np.max] of the probe is NaN, so is the threshold,
    no pixel compares greater, and the mask that is applied is what
    opening and dilation make of the all-False array. *)
Theorem nan_pixel_empties_the_thresholded_mask
  (probe : array) (mask_threshold : num) (mask_expansion mask_opening : Z)
  (i j : nat) :
  item probe i j = Some NaN ->
  np_max probe = Ok NaN
  /\ gt_s probe (fmul NaN mask_threshold) = amap (fun _ => false) probe
  /\ probe_mask probe mask_threshold mask_expansion mask_opening
     = Ok (binary_dilation
             (binary_opening (amap (fun _ => false) probe) mask_opening)
             mask_expansion).
Proof.
  intro H. apply np_max_nan in H.
  assert (Hgt : gt_s probe (fmul NaN mask_threshold)
                = amap (fun _ => false) probe).
  { unfold gt_s. apply amap_ext_every, every_all. intro x. now destruct x. }
  split; [exact H|]. split; [exact Hgt|].
  unfold probe_mask. now rewrite H, Hgt.
Qed.

(** The left fold of [fmax] over finite numbers is their maximum. *)
Lemma fold_left_fmax_fin (l : list num) (x : Qc) :
  Forall (fun v => is_finite v = true) l ->
  exists m,
    fold_left fmax l (Fin x) = Fin m
    /\ x <= m
    /\ (forall a, In (Fin a) l -> a <= m)
    /\ (m = x \/ In (Fin m) l).
Proof.
  intro H. revert x. induction H as [|v l Hv _ IH]; intro x.
  - exists x. cbn. repeat split; auto using Qcle_refl. intros a [].
  - destruct v as [y| |]; try discriminate. cbn [fold_left fmax].
    destruct (fgt (Fin y) (Fin x)) eqn:Hgt.
    + apply fgt_fin in Hgt. destruct (IH y) as [m [Hm [Hym [Hall Hin]]]].
      exists m. split; [exact Hm|]. split.
      * eapply Qcle_trans; [apply Qclt_le_weak; exact Hgt|exact Hym].
      * split.
        -- intros a [Ha|Ha]; [injection Ha as <-; exact Hym|now apply Hall].
        -- right. destruct Hin as [->|Hin]; [now left|now right].
    + assert (Hyx : y <= x).
      { apply Qcnot_lt_le. intro Hlt. apply fgt_fin in Hlt. congruence. }
      destruct (IH x) as [m [Hm [Hxm [Hall Hin]]]].
      exists m. split; [exact Hm|]. split; [exact Hxm|]. split.
      * intros a [Ha|Ha]; [injection Ha as <-|now apply Hall].
        eapply Qcle_trans; eassumption.
      * destruct Hin as [->|Hin]; [now left|right; now right].
Qed.

(** [np.max] of a finite, non-empty array is one of its entries and no
    entry exceeds it. *)
Lemma np_max_finite (probe : array) :
  all_finite probe = true -> concat probe <> [] ->
  exists peak,
    np_max probe = Ok (Fin peak)
    /\ (exists i j, item probe i j = Some (Fin peak))
    /\ every (fun v => exists a, v = Fin a /\ a <= peak) probe.
Proof.
  intros Hf Hne. apply every_forallb in Hf.
  assert (Hc : Forall (fun v => is_finite v = true) (concat probe))
    by now apply Forall_concat.
  unfold np_max. destruct (concat probe) as [|v l] eqn:Hcat; [congruence|].
  inversion Hc as [|? ? Hv Hl]; subst.
  destruct v as [x| |]; try discriminate.
  destruct (fold_left_fmax_fin l x Hl) as [m [Hm [Hxm [Hall Hin]]]].
  exists m. split; [now rewrite Hm|]. split.
  - apply in_concat_item. rewrite Hcat.
    destruct Hin as [->|Hin]; [now left|now right].
  - apply Forall_concat. rewrite Hcat. constructor.
    + now exists x.
    + apply Forall_forall. intros v Hv'.
      rewrite Forall_forall in Hl. specialize (Hl v Hv').
      destruct v as [a| |]; try discriminate. exists a. auto.
Qed.

(** Property X11.  The comparison of line 46 is strict.  On a finite,
    non-empty probe a [mask_threshold] of 1 lets no pixel into the
    thresholded mask, not even the brightest one, and the mask that is
    applied is what opening and dilation make of the all-False array.
    With a positive maximum every [mask_threshold] of at most 1/2, the
    default 0.2 among them, lets the brightest pixel into the
    thresholded mask. *)
Theorem threshold_one_excludes_the_peak
  (probe : array) (mask_expansion mask_opening : Z) :
  all_finite probe = true -> concat probe <> [] ->
  exists peak,
    np_max probe = Ok (Fin peak)
    /\ probe_mask probe one mask_expansion mask_opening
       = Ok (binary_dilation
               (binary_opening (amap (fun _ => false) probe) mask_opening)
               mask_expansion)
    /\ (forall t, 0 < peak -> t <= Q2Qc (1 # 2) ->
          let above := gt_s probe (fmul (Fin peak) (Fin t)) in
          probe_mask probe (Fin t) mask_expansion mask_opening
          = Ok (binary_dilation (binary_opening above mask_opening)
                  mask_expansion)
          /\ exists i j,
               item probe i j = Some (Fin peak)
               /\ item above i j = Some true).
Proof.
  intros Hf Hne.
  destruct (np_max_finite probe Hf Hne) as [peak [Hmax [[i [j Hij]] Hall]]].
  exists peak. split; [exact Hmax|]. split.
  - unfold probe_mask. rewrite Hmax. cbv zeta. do 3 f_equal.
    unfold gt_s. apply amap_ext_every.
    eapply every_impl; [|exact Hall]. intros v [a [-> Ha]].
    unfold one. cbn [fmul]. rewrite Qcmult_1_r.
    destruct (fgt (Fin a) (Fin peak)) eqn:Hgt; [|reflexivity].
    apply fgt_fin in Hgt. now apply Qcle_not_lt in Ha.
  - intros t Hpos Ht. cbv zeta. split.
    + unfold probe_mask. now rewrite Hmax.
    + exists i, j. split; [exact Hij|].
      unfold gt_s. rewrite item_amap, Hij. cbn [option_map fmul]. f_equal.
      apply fgt_fin. rewrite Qcmult_comm.
      rewrite <- (Qcmult_1_l peak) at 2. apply Qcmult_lt_compat_r; [exact Hpos|].
      eapply Qcle_lt_trans; [exact Ht|]. reflexivity.
Qed.

End Threshold.

(** ** What the loop and the mask preserve *)

Section Preservation.

Context {E : Externals}.

Local Open Scope Qc_scope.

Lemma Qcmult_nonneg (a b : Qc) : 0 <= a -> 0 <= b -> 0 <= a * b.
Proof.
  unfold Qcle. change (this (a * b)) with (Qred (this a * this b)).
  change (this 0) with 0%Q. rewrite Qred_correct.
  apply Qmult_le_0_compat.
Qed.

Lemma Qcplus_nonneg (a b : Qc) : 0 <= a -> 0 <= b -> 0 <= a + b.
Proof.
  intros Ha Hb. replace 0 with (0 + 0) by ring.
  now apply Qcplus_le_compat.
Qed.

Lemma Qcinv_nonneg (a : Qc) : 0 <= a -> 0 <= / a.
Proof.
  unfold Qcle. change (this (/ a)) with (Qred (/ this a)).
  change (this 0) with 0%Q. rewrite Qred_correct.
  apply Qinv_le_0_compat.
Qed.

Lemma of_nat_nonneg (k : nat) : 0 <= Q2Qc (inject_Z (Z.of_nat k)).
Proof.
  unfold Qcle. change (this (Q2Qc (inject_Z (Z.of_nat k))))
    with (Qred (inject_Z (Z.of_nat k))).
  change (this 0) with 0%Q. rewrite Qred_correct.
  unfold Qle, inject_Z. cbn [Qnum Qden]. lia.
Qed.

(** Line 44, entry by entry, on finite numbers. *)
Lemma running_average_entry (n : nat) (a b : Qc) :
  (1 <= n)%nat ->
  fadd (fdiv (fmul (Fin a) (of_nat (n - 1))) (of_nat n)) (fdiv (Fin b) (of_nat n))
  = Fin (a * Q2Qc (inject_Z (Z.of_nat (n - 1)))
           / Q2Qc (inject_Z (Z.of_nat n))
         + b / Q2Qc (inject_Z (Z.of_nat n))).
Proof.
  intro Hn. unfold of_nat. cbn [fmul].
  now rewrite !fdiv_fin by (apply of_nat_inj_0; lia).
Qed.

(** A property of numbers that the patterns have, the shift primitive
    keeps and line 44 keeps, holds of the accumulated probe. *)
Lemma for_each_every (P : num -> Prop) (ns : list nat) (acc p : array)
  (w : world) :
  (forall i j, every P (pattern (cube w) i j)) ->
  (forall ar x y, every P ar -> every P (get_shifted_ar ar x y)) ->
  (forall n a b, (1 <= n)%nat -> P a -> P b ->
     P (fadd (fdiv (fmul a (of_nat (n - 1))) (of_nat n)) (fdiv b (of_nat n)))) ->
  (0 < R_Nx (cube w))%nat ->
  (forall n, In n ns -> (1 <= n)%nat) ->
  every P acc ->
  fst (for_each ns average_step acc w) = Ok p ->
  every P p.
Proof.
  intros Hdata Hshift Hstep. revert acc w Hdata.
  induction ns as [|n ns IH]; intros acc w Hdata Hx Hns Hacc Hp.
  - cbn in Hp. now injection Hp as <-.
  - cbn [for_each] in Hp. unfold bind in Hp.
    rewrite average_step_run in Hp by exact Hx. cbv zeta in Hp.
    rewrite slice_in_scan in Hp.
    destruct (in_scan (cube w) _); [|discriminate Hp].
    apply IH in Hp; auto.
    + intros m Hm. apply Hns. now right.
    + unfold running_average, add, div_s, mul_s.
      rewrite amap_amap, azip_amap.
      eapply every_azip; [|exact Hacc|].
      * intros a b Ha Hb. apply Hstep; [|exact Ha|exact Hb].
        apply Hns. now left.
      * unfold aligned_to. destruct (get_shift acc _).
        apply Hshift, Hdata.
Qed.

Lemma accumulate_probe_every (P : num -> Prop) (dc : DataCube) (probe : array) :
  (forall i j, every P (pattern dc i j)) ->
  (forall ar x y, every P ar -> every P (get_shifted_ar ar x y)) ->
  (forall n a b, (1 <= n)%nat -> P a -> P b ->
     P (fadd (fdiv (fmul a (of_nat (n - 1))) (of_nat n)) (fdiv b (of_nat n)))) ->
  result accumulate_probe dc = Ok probe ->
  every P probe.
Proof.
  intros Hdata Hshift Hstep. unfold result.
  rewrite accumulate_probe_run, slice_in_scan.
  destruct (in_scan dc (0%nat, 0%nat)) eqn:H00; [|discriminate].
  apply in_scan_origin in H00. intro H.
  apply (for_each_every P _ _ _ (start dc)) in H; auto.
  - tauto.
  - intros n Hn. unfold range in Hn. apply in_seq in Hn. lia.
Qed.

Lemma running_average_finite_nonneg (n : nat) (a b : num) :
  (1 <= n)%nat -> finite_nonneg a -> finite_nonneg b ->
  finite_nonneg
    (fadd (fdiv (fmul a (of_nat (n - 1))) (of_nat n)) (fdiv b (of_nat n))).
Proof.
  intros Hn [x [-> Hx]] [y [-> Hy]]. rewrite running_average_entry by exact Hn.
  eexists. split; [reflexivity|]. unfold Qcdiv.
  apply Qcplus_nonneg; repeat apply Qcmult_nonneg; auto;
    try apply Qcinv_nonneg; apply of_nat_nonneg.
Qed.

Lemma running_average_finite (n : nat) (a b : num) :
  (1 <= n)%nat -> is_finite a = true -> is_finite b = true ->
  is_finite
    (fadd (fdiv (fmul a (of_nat (n - 1))) (of_nat n)) (fdiv b (of_nat n)))
  = true.
Proof.
  intros Hn Ha Hb. destruct a as [x| |], b as [y| |]; try discriminate.
  now rewrite running_average_entry.
Qed.

(** Property X12.  When every pattern of the datacube holds finite
    numbers that are not negative and the shift primitive never makes
    such an array negative or non-finite, whatever the averager returns
    holds finite numbers that are not negative. *)
Theorem returned_probe_is_not_negative
  (mask_threshold : num) (mask_expansion mask_opening : Z) (dc : DataCube)
  (out : array) :
  (forall i j, every finite_nonneg (pattern dc i j)) ->
  (forall ar x y,
     every finite_nonneg ar -> every finite_nonneg (get_shifted_ar ar x y)) ->
  result (get_average_probe_from_vacuum_scan mask_threshold mask_expansion
            mask_opening) dc = Ok out ->
  every finite_nonneg out.
Proof.
  intros Hdata Hshift H. rewrite result_get_average_probe in H.
  destruct (result accumulate_probe dc) as [probe|e] eqn:Hacc;
    [|discriminate H].
  apply (accumulate_probe_every finite_nonneg) in Hacc; auto;
    [|exact running_average_finite_nonneg].
  destruct (probe_mask probe _ _ _) as [mask|e]; [|discriminate H].
  injection H as <-. unfold mul_mask.
  apply every_azip with (P := finite_nonneg) (Q := fun _ => True);
    [|exact Hacc|now apply every_all].
  intros v b [a [-> Ha]] _. destruct b; cbn [of_bool one zero fmul].
  - eexists. split; [reflexivity|]. rewrite Qcmult_1_r. exact Ha.
  - eexists. split; [reflexivity|]. rewrite Qcmult_0_r. apply Qcle_refl.
Qed.

(** Property X13.  In exact arithmetic, when every pattern of the
    datacube is finite and the shift primitive keeps finite arrays
    finite, the accumulated probe is finite, and the returned probe is
    exactly zero at every pixel whose bit in the final mask is unset and
    equal to the accumulated probe at every pixel whose bit is set.  In
    float64 the loop can overflow to an infinity, which this property
    leaves out. *)
Theorem returned_probe_is_zero_outside_the_mask
  (mask_threshold : num) (mask_expansion mask_opening : Z) (dc : DataCube)
  (out : array) :
  (forall i j, all_finite (pattern dc i j) = true) ->
  (forall ar x y,
     all_finite ar = true -> all_finite (get_shifted_ar ar x y) = true) ->
  result (get_average_probe_from_vacuum_scan mask_threshold mask_expansion
            mask_opening) dc = Ok out ->
  exists probe mask,
    result accumulate_probe dc = Ok probe
    /\ probe_mask probe mask_threshold mask_expansion mask_opening = Ok mask
    /\ all_finite probe = true
    /\ (forall i j v,
          item out i j = Some v -> item mask i j = Some false -> v = zero)
    /\ (forall i j v,
          item out i j = Some v -> item mask i j = Some true ->
          item probe i j = Some v).
Proof.
  intros Hdata Hshift H. rewrite result_get_average_probe in H.
  destruct (result accumulate_probe dc) as [probe|e] eqn:Hacc;
    [|discriminate H].
  assert (Hfin : every (fun v => is_finite v = true) probe).
  { apply (accumulate_probe_every (fun v => is_finite v = true) dc); auto.
    - intros i j. apply every_forallb, Hdata.
    - intros ar x y Har. apply every_forallb, Hshift.
      now apply every_forallb.
    - exact running_average_finite. }
  destruct (probe_mask probe _ _ _) as [mask|e] eqn:Hm; [|discriminate H].
  injection H as <-. exists probe, mask.
  split; [reflexivity|]. split; [exact Hm|].
  split; [now apply every_forallb|]. split.
  - intros i j v Hout Hmask. unfold mul_mask in Hout.
    rewrite item_azip, Hmask in Hout.
    destruct (item probe i j) as [x|] eqn:Hx; [|discriminate Hout].
    injection Hout as <-.
    assert (Hxf : is_finite x = true).
    { apply item_in_concat in Hx.
      apply Forall_concat in Hfin. rewrite Forall_forall in Hfin.
      now apply Hfin. }
    destruct x as [a| |]; try discriminate. apply fmul_false.
  - intros i j v Hout Hmask. unfold mul_mask in Hout.
    rewrite item_azip, Hmask in Hout.
    destruct (item probe i j) as [x|]; [|discriminate Hout].
    injection Hout as <-. now rewrite fmul_true.
Qed.

End Preservation.

(** ** More facts about the reference primitives *)

Section MoreReferenceFacts.

Import Reference.

Lemma shifted_ar_every (P : num -> Prop) (ar : array) (x y : num) :
  every P ar -> every P (shifted_ar ar x y).
Proof.
  unfold every, shifted_ar. intro H. apply Forall_map.
  apply Forall_rotate. eapply Forall_impl; [|exact H].
  intros r Hr. now apply Forall_rotate.
Qed.

Lemma shifted_ar_finite (ar : array) (x y : num) :
  all_finite ar = true -> all_finite (shifted_ar ar x y) = true.
Proof.
  intro H. apply every_forallb, shifted_ar_every. now apply every_forallb.
Qed.

Lemma iter_keeps_shape (f : mask -> mask) (n : nat) (m : mask) :
  (forall m', is_ndarray m' = true -> same_shape (f m') m') ->
  is_ndarray m = true -> same_shape (Nat.iter n f m) m.
Proof.
  intros Hf Hm. induction n as [|n IH]; cbn [Nat.iter].
  - apply same_shape_refl.
  - eapply same_shape_trans; [apply Hf|exact IH].
    eapply is_ndarray_same_shape; eassumption.
Qed.

Lemma dilate1_shape (m : mask) :
  is_ndarray m = true -> same_shape (dilate1 m) m.
Proof. intro H. unfold dilate1. now apply (same_shape_tabulate _ m). Qed.

Lemma erode1_shape (m : mask) :
  is_ndarray m = true -> same_shape (erode1 m) m.
Proof. intro H. unfold erode1. now apply (same_shape_tabulate _ m). Qed.

Lemma dilation_shape (m : mask) (k : Z) :
  is_ndarray m = true -> same_shape (dilation m k) m.
Proof. intro H. apply iter_keeps_shape; [exact dilate1_shape|exact H]. Qed.

Lemma opening_shape (m : mask) (k : Z) :
  is_ndarray m = true -> same_shape (opening m k) m.
Proof.
  intro H. unfold opening.
  assert (He : same_shape (erosion m k) m)
    by (apply iter_keeps_shape; [exact erode1_shape|exact H]).
  eapply same_shape_trans; [apply dilation_shape|exact He].
  eapply is_ndarray_same_shape; eassumption.
Qed.

Lemma blob_finite_nonneg (cx cy x y : nat) : finite_nonneg (blob cx cy x y).
Proof.
  unfold blob.
  repeat match goal with |- context [if ?b then _ else _] => destruct b end;
    eexists; (split; [reflexivity|]);
    first [apply of_nat_nonneg | apply Qcle_refl].
Qed.

Lemma aligned_finite_nonneg (rx ry i j : nat) :
  every finite_nonneg (pattern (aligned rx ry) i j).
Proof.
  unfold pattern. apply every_tabulate. intros x y.
  apply blob_finite_nonneg.
Qed.

(** A pair of finite numbers is known by the fractions it holds. *)
Lemma pair_of_fractions (p : num * num) (a b : Qc) :
  match p with
  | (Fin a', Fin b') =>
      Qeq_bool (this a') (this a) && Qeq_bool (this b') (this b)
  | _ => false
  end = true ->
  p = (Fin a, Fin b).
Proof.
  destruct p as [[a'| |] [b'| |]]; try discriminate. intro H.
  apply andb_prop in H. destruct H as [Ha Hb].
  apply Qeq_bool_iff in Ha, Hb. apply Qc_is_canon in Ha, Hb. now subst.
Qed.

End MoreReferenceFacts.

(** ** Runs on concrete data *)

Section Runs.

Import Reference.

(** Unfolds a run of the averager on a concrete scan, one iteration at a
    time. *)
Ltac run_averager :=
  rewrite get_average_probe_run, accumulate_probe_run;
  unfold range; cbn [R_N R_Nx R_Ny aligned blobs Nat.mul Nat.add Nat.sub seq];
  cbn [slice in_scan fst snd R_Nx R_Ny aligned blobs Nat.ltb Nat.leb andb];
  cbn [for_each]; unfold bind;
  repeat (rewrite average_step_run by (cbn; lia); cbv zeta;
          cbn [slice in_scan scan_position start logged cube reads fst snd
               R_Nx R_Ny aligned blobs Nat.div Nat.modulo Nat.divmod
               Nat.ltb Nat.leb Nat.sub andb app]).

(** Claim C1, counterexample.  Two 2x2 scans that differ in pattern #0
    alone (its blob one pixel further right) give different averages:
    pattern #0 decides where every later pattern is aligned to. *)
Lemma first_pattern_moves_the_average :
  same_but_first (aligned 2 2) first_moved
  /\ result (@get_average_probe_from_vacuum_scan externals
               default_mask_threshold 1 1) (aligned 2 2)
     <> result (@get_average_probe_from_vacuum_scan externals
                  default_mask_threshold 1 1) first_moved.
Proof.
  split.
  - unfold same_but_first. repeat split.
    intros [|i] [|j] x y H; try reflexivity. congruence.
  - intro H.
    apply (f_equal (fun r => match r with
                             | Ok a => option_map is_zero_num (item a 2 1)
                             | Raise _ => None
                             end)) in H.
    vm_compute in H. discriminate H.
Qed.

Lemma first_pattern_only_anchors_the_average_witness :
  (2 <= R_Nx (aligned 2 2) /\ 2 <= R_Ny (aligned 2 2)
   /\ all_finite (pattern (aligned 2 2) 0 0) = true)
  /\ run (@accumulate_probe externals) (aligned 2 2)
     = for_each (range 2 (R_N (aligned 2 2))) (@average_step externals)
         (@aligned_to externals (pattern (aligned 2 2) 0 0)
            (pattern (aligned 2 2) 0 1))
         {| cube := aligned 2 2; reads := [(0, 0); (0, 1)] |}.
Proof.
  assert (H1 : 2 <= R_Nx (aligned 2 2)) by (cbn; lia).
  assert (H2 : 2 <= R_Ny (aligned 2 2)) by (cbn; lia).
  assert (H3 : all_finite (pattern (aligned 2 2) 0 0) = true)
    by (vm_compute; reflexivity).
  split; [auto|].
  apply (@first_pattern_only_anchors_the_average externals shifted_ar_shape
           (aligned 2 2) H1 H2 H3).
Defined.

(** The update of the code and the textbook update differ already on
    one pixel: from the probe 1 and the shifted value 0 the code keeps 0,
    the textbook mean is 1/2. *)
Lemma running_average_is_not_the_textbook_mean :
  running_average 1 [[one]] [[zero]] = [[zero]]
  /\ textbook_average 1 [[one]] [[zero]] <> [[zero]].
Proof.
  split.
  - apply first_update; [repeat constructor | reflexivity].
  - intro H.
    apply (f_equal (fun a => option_map is_zero_num (item a 0 0))) in H.
    vm_compute in H. discriminate H.
Qed.

Lemma get_probe_kernel_sums_to_one_witness :
  is_nonzero (np_sum blob5) = true
  /\ exists probe_kernel,
       @get_probe_kernel externals blob5 = Ok probe_kernel
       /\ np_sum probe_kernel = one.
Proof.
  assert (H : is_nonzero (np_sum blob5) = true) by (vm_compute; reflexivity).
  split; [exact H|].
  exact (@get_probe_kernel_sums_to_one externals shifted_ar_sum blob5 H).
Defined.


(** Claim C4, counterexample.  On the 2x2 scan whose patterns hold
    [+inf] at the pixel (0,0) the function returns, the final mask is
    unset at (0,0), and the output there is NaN, not zero: the
    accumulated probe is not a finite number at that pixel, and
    [probe*mask] multiplies it by 0. *)
Lemma infinite_pixel_is_not_zeroed :
  exists out probe mask,
    result (@get_average_probe_from_vacuum_scan externals
              default_mask_threshold 1 1) inf_pixel = Ok out
    /\ result (@accumulate_probe externals) inf_pixel = Ok probe
    /\ @probe_mask externals probe default_mask_threshold 1 1 = Ok mask
    /\ item mask 0 0 = Some false
    /\ item out 0 0 = Some NaN
    /\ item out 0 0 <> Some zero.
Proof.
  eexists. eexists. eexists.
  split; [vm_compute; reflexivity|].
  split; [vm_compute; reflexivity|].
  split; [vm_compute; reflexivity|].
  split; [reflexivity|]. split; [reflexivity|].
  discriminate.
Qed.

Lemma returned_probe_is_masked_witness :
  exists out probe peak,
    result (@get_average_probe_from_vacuum_scan externals
              default_mask_threshold 1 1) (aligned 2 2) = Ok out
    /\ result (@accumulate_probe externals) (aligned 2 2) = Ok probe
    /\ np_max probe = Ok peak
    /\ out = mul_mask probe
               (dilation
                  (opening (gt_s probe (fmul peak default_mask_threshold)) 1)
                  1)
    /\ item out 0 0 = Some zero.
Proof.
  pose (out := match result (@get_average_probe_from_vacuum_scan externals
                               default_mask_threshold 1 1) (aligned 2 2) with
               | Ok a => a
               | Raise _ => []
               end).
  assert (H : result (@get_average_probe_from_vacuum_scan externals
                        default_mask_threshold 1 1) (aligned 2 2) = Ok out)
    by (vm_compute; reflexivity).
  destruct (@returned_probe_is_masked externals default_mask_threshold 1 1
              (aligned 2 2) out H)
    as [probe [peak [Hacc [Hmax [Hout _]]]]].
  exists out, probe, peak.
  split; [exact H|]. split; [exact Hacc|]. split; [exact Hmax|].
  split; [exact Hout|]. vm_compute. reflexivity.
Defined.

Lemma scan_positions_use_row_count_witness :
  reads_of (@get_average_probe_from_vacuum_scan externals
              default_mask_threshold 1 1) (aligned 2 2)
  = [(0, 0); (0, 1); (1, 0); (1, 1)].
Proof.
  pose (out := match result (@get_average_probe_from_vacuum_scan externals
                               default_mask_threshold 1 1) (aligned 2 2) with
               | Ok a => a
               | Raise _ => []
               end).
  assert (H : result (@get_average_probe_from_vacuum_scan externals
                        default_mask_threshold 1 1) (aligned 2 2) = Ok out)
    by (vm_compute; reflexivity).
  exact (proj1 (proj2 (@scan_positions_use_row_count externals
                         default_mask_threshold 1 1 (aligned 2 2))) out H).
Defined.

(** On a scan of 2 rows and 3 columns the positions are computed with
    the 2: index 2 is read at (1,0), not at (0,2), and index 4 at (2,0),
    outside the datacube. *)
Lemma rows_not_columns_on_2x3 (E : Externals) :
  reads_of (get_average_probe_from_vacuum_scan default_mask_threshold
              default_mask_expansion default_mask_opening) (aligned 2 3)
  = [(0, 0); (0, 1); (1, 0); (1, 1); (2, 0)].
Proof. unfold reads_of. run_averager. reflexivity. Qed.

(** Claim C6, counterexample.  On the all-zero 2x2 probe no generator
    raises: each returns a kernel, NaN at every pixel. *)
Lemma zero_probe_raises_nothing :
  all_zero (full 2 2 zero) = true
  /\ ~ raises (@get_probe_kernel externals (full 2 2 zero))
  /\ ~ raises (@get_probe_kernel_subtrgaussian externals (full 2 2 zero) one)
  /\ ~ raises (@get_probe_kernel_logistictrench externals (full 2 2 zero)
                 one one one)
  /\ @get_probe_kernel externals (full 2 2 zero) = Ok (full 2 2 NaN).
Proof.
  split; [reflexivity|].
  repeat split; try (intros [e He]; discriminate He).
Qed.

Lemma zero_probe_kernels_are_nan_witness :
  (@get_probe_kernel externals (full 2 2 zero) = Ok (full 2 2 NaN)
   /\ @get_probe_kernel_subtrgaussian externals (full 2 2 zero) one
      = Ok (full 2 2 NaN)
   /\ @get_probe_kernel_logistictrench externals (full 2 2 zero) one one one
      = Ok (full 2 2 NaN))
  /\ @get_probe_kernel_subtrgaussian externals (full 2 2 zero) huge
     = Raise OverflowError.
Proof.
  split.
  - exact (@zero_probe_kernels_are_nan externals (full 2 2 zero) one one one
             one eq_refl eq_refl).
  - exact (proj1 (proj2 (@zero_probe_kernels_are_nan externals
                           (full 2 2 zero) huge one one one
                           eq_refl eq_refl))).
Defined.

(** Claim C7, counterexample.  With [radius=5, trenchwidth=0,
    blurwidth=1e-6] the kernel of the blob is NaN at every pixel, so it
    is within no tolerance of the plain kernel, which is finite. *)
Lemma zero_width_trench_is_not_the_plain_kernel :
  exists trench plain,
    @get_probe_kernel_logistictrench externals blob5 (of_nat 5) zero tiny
    = Ok trench
    /\ @get_probe_kernel externals blob5 = Ok plain
    /\ all_nan trench = true
    /\ all_finite plain = true
    /\ forall eps, ~ close eps trench plain.
Proof.
  eexists. eexists.
  split; [vm_compute; reflexivity|].
  split; [vm_compute; reflexivity|].
  split; [reflexivity|]. split; [reflexivity|].
  intros eps H. inversion H as [|r r' a b Hr _]; subst.
  inversion Hr as [|u v c d Huv _]; subst.
  destruct Huv as [p [q [Hp _]]]. discriminate Hp.
Qed.

Lemma zero_width_trench_kernel_is_nan_witness :
  @logistic_annulus externals blob5 (of_nat 5) zero tiny = zeros_like blob5
  /\ np_sum (@logistic_annulus externals blob5 (of_nat 5) zero tiny) = zero
  /\ exists x y,
       @get_probe_kernel_logistictrench externals blob5 (of_nat 5) zero tiny
       = Ok (shifted_ar (nan_like blob5) (fneg (Fin x)) (fneg (Fin y))).
Proof.
  assert (H : exists x y, @get_CoM externals blob5 = (Fin x, Fin y))
    by (eexists; eexists; vm_compute; reflexivity).
  destruct H as [x [y H]].
  destruct (@zero_width_trench_kernel_is_nan externals blob5 x y
              (Q2Qc (inject_Z 5)) (Q2Qc (1 # 1000000))
              eq_refl H eq_refl (fun q => eq_refl) exp2_nonneg)
    as [H1 [H2 H3]].
  split; [exact H1|]. split; [exact H2|]. exists x, y. exact H3.
Defined.

(** On the square 2x2 scan of the same blob the averager returns the
    blob times its mask, as on every square scan of identical patterns. *)
Lemma identical_2x2_average :
  exists mask,
    @probe_mask externals blob5 default_mask_threshold 1 1 = Ok mask
    /\ result (@get_average_probe_from_vacuum_scan externals
                 default_mask_threshold 1 1) (aligned 2 2)
       = Ok (mul_mask blob5 mask).
Proof.
  apply (@identical_square_scan_average externals shift_same shifted_ar_zero).
  - reflexivity.
  - cbn. lia.
  - intros i j _ _. reflexivity.
  - reflexivity.
  - discriminate.
Qed.

(** Claim C8, the failing input.  A line scan of one row and two
    columns, both patterns the same blob: the loop computes the position
    (1,0) for index 1 and the read raises IndexError, whatever the
    primitives and the mask parameters. *)
Theorem line_scan_raises_IndexError
  (E : Externals) (mask_threshold : num) (mask_expansion mask_opening : Z) :
  identical (aligned 1 2) blob5
  /\ result (get_average_probe_from_vacuum_scan mask_threshold mask_expansion
               mask_opening) (aligned 1 2) = Raise IndexError
  /\ reads_of (get_average_probe_from_vacuum_scan mask_threshold
                 mask_expansion mask_opening) (aligned 1 2)
     = [(0, 0); (1, 0)].
Proof.
  split; [|split].
  - intros i j _ _. reflexivity.
  - apply non_square_scan_raises. discriminate.
  - unfold reads_of. run_averager. reflexivity.
Qed.

(** Claim C9, counterexample.  A scan with a single position does not
    fail: the function returns a probe. *)
Lemma single_position_scan_returns :
  R_N (aligned 1 1) = 1
  /\ ~ raises (result (@get_average_probe_from_vacuum_scan externals
                         default_mask_threshold 1 1) (aligned 1 1))
  /\ exists out,
       result (@get_average_probe_from_vacuum_scan externals
                 default_mask_threshold 1 1) (aligned 1 1) = Ok out
       /\ item out 2 2 = Some (of_nat 4).
Proof.
  split; [reflexivity|]. split.
  - intros [e He]. vm_compute in He. discriminate He.
  - eexists. split; [vm_compute; reflexivity|]. vm_compute. reflexivity.
Qed.

Lemma fewer_than_two_scan_positions_witness :
  result (@get_average_probe_from_vacuum_scan externals
            default_mask_threshold 1 1) (aligned 0 3) = Raise IndexError
  /\ exists mask,
       @probe_mask externals (pattern (aligned 1 1) 0 0)
         default_mask_threshold 1 1 = Ok mask
       /\ result (@get_average_probe_from_vacuum_scan externals
                    default_mask_threshold 1 1) (aligned 1 1)
          = Ok (mul_mask (pattern (aligned 1 1) 0 0) mask)
       /\ reads_of (@get_average_probe_from_vacuum_scan externals
                      default_mask_threshold 1 1) (aligned 1 1) = [(0, 0)].
Proof.
  split.
  - apply (proj1 (@fewer_than_two_scan_positions externals
                    default_mask_threshold 1 1 (aligned 0 3))).
    reflexivity.
  - apply (proj2 (@fewer_than_two_scan_positions externals
                    default_mask_threshold 1 1 (aligned 1 1))).
    + reflexivity.
    + cbn. lia.
    + cbn. lia.
Defined.

(** *** The further properties on concrete runs *)

Lemma averager_outcome_by_shape_witness :
  result (@get_average_probe_from_vacuum_scan externals
              default_mask_threshold 1 1) (aligned 2 3) = Raise IndexError
  /\ result (@get_average_probe_from_vacuum_scan externals
              default_mask_threshold 1 1) no_pixels = Raise ValueError
  /\ exists out, result (@get_average_probe_from_vacuum_scan externals
              default_mask_threshold 1 1) (aligned 2 2) = Ok out.
Proof.
  split; [|split].
  - apply (proj1 (@averager_outcome_by_shape externals shifted_ar_shape
                    default_mask_threshold 1 1 (aligned 2 3))).
    left. cbn. lia.
  - apply (proj1 (proj2 (@averager_outcome_by_shape externals
                           shifted_ar_shape default_mask_threshold 1 1
                           no_pixels))).
    + reflexivity.
    + cbn. lia.
    + left. reflexivity.
  - apply (proj2 (proj2 (@averager_outcome_by_shape externals
                           shifted_ar_shape default_mask_threshold 1 1
                           (aligned 2 2)))).
    + reflexivity.
    + cbn. lia.
    + cbn. lia.
    + cbn. lia.
Defined.

Lemma returned_probe_has_pattern_shape_witness :
  exists out,
    result (@get_average_probe_from_vacuum_scan externals
              default_mask_threshold 1 1) (aligned 2 2) = Ok out
    /\ same_shape out (pattern (aligned 2 2) 0 0)
    /\ length out = Q_Nx (aligned 2 2)
    /\ Forall (fun row => length row = Q_Ny (aligned 2 2)) out.
Proof.
  pose (out := match result (@get_average_probe_from_vacuum_scan externals
                               default_mask_threshold 1 1) (aligned 2 2) with
               | Ok a => a
               | Raise _ => []
               end).
  assert (H : result (@get_average_probe_from_vacuum_scan externals
                        default_mask_threshold 1 1) (aligned 2 2) = Ok out)
    by (vm_compute; reflexivity).
  exists out. split; [exact H|].
  exact (@returned_probe_has_pattern_shape externals shifted_ar_shape
           opening_shape dilation_shape default_mask_threshold 1 1
           (aligned 2 2) out H).
Defined.

Lemma accumulated_probe_is_mean_of_aligned_patterns_witness :
  exists probe,
    result (@accumulate_probe externals) (aligned 2 2) = Ok probe
    /\ length (@aligned_run externals (aligned 2 2)
                 (range 1 (R_N (aligned 2 2))) (pattern (aligned 2 2) 0 0))
       = R_N (aligned 2 2) - 1
    /\ probe
       = array_mean
           (@aligned_run externals (aligned 2 2)
              (range 1 (R_N (aligned 2 2))) (pattern (aligned 2 2) 0 0))
           (pattern (aligned 2 2) 0 0).
Proof.
  pose (probe := match result (@accumulate_probe externals) (aligned 2 2) with
                 | Ok a => a
                 | Raise _ => []
                 end).
  assert (H : result (@accumulate_probe externals) (aligned 2 2) = Ok probe)
    by (vm_compute; reflexivity).
  assert (H1 : 2 <= R_Nx (aligned 2 2)) by (cbn; lia).
  assert (H2 : 2 <= R_Ny (aligned 2 2)) by (cbn; lia).
  assert (H3 : forall i j, all_finite (pattern (aligned 2 2) i j) = true)
    by (intros i j; vm_compute; reflexivity).
  exists probe. split; [exact H|].
  exact (@accumulated_probe_is_mean_of_aligned_patterns externals
           shifted_ar_shape shifted_ar_finite (aligned 2 2) probe
           H1 H2 H3 H).
Defined.

Lemma returning_run_reads_every_position_once_witness :
  NoDup (reads_of (@get_average_probe_from_vacuum_scan externals
              default_mask_threshold 1 1) (aligned 2 2))
  /\ length (reads_of (@get_average_probe_from_vacuum_scan externals
              default_mask_threshold 1 1) (aligned 2 2)) = 4.
Proof.
  pose (out := match result (@get_average_probe_from_vacuum_scan externals
                               default_mask_threshold 1 1) (aligned 2 2) with
               | Ok a => a
               | Raise _ => []
               end).
  assert (H : result (@get_average_probe_from_vacuum_scan externals
                        default_mask_threshold 1 1) (aligned 2 2) = Ok out)
    by (vm_compute; reflexivity).
  destruct (@returning_run_reads_every_position_once externals
              default_mask_threshold 1 1 (aligned 2 2) out H)
    as [H1 [H2 _]].
  split; [exact H1|exact H2].
Defined.

Lemma identical_patterns_average_to_themselves_witness :
  result (@accumulate_probe externals) (aligned 2 2) = Ok blob5
  /\ result (@get_average_probe_from_vacuum_scan externals
              default_mask_threshold 1 1) (aligned 2 2)
     = match @probe_mask externals blob5 default_mask_threshold 1 1 with
       | Ok mask => Ok (mul_mask blob5 mask)
       | Raise e => Raise e
       end.
Proof.
  apply (@identical_patterns_average_to_themselves externals shift_same
           shifted_ar_zero default_mask_threshold 1 1 (aligned 2 2) blob5).
  - reflexivity.
  - cbn. lia.
  - intros i j _ _. reflexivity.
  - reflexivity.
Defined.

Lemma kernels_have_probe_shape_witness :
  ((exists k, @get_probe_kernel externals blob5 = Ok k /\ same_shape k blob5)
   /\ (exists k, @get_probe_kernel_subtrgaussian externals blob5 one = Ok k
                 /\ same_shape k blob5)
   /\ (exists k, @get_probe_kernel_logistictrench externals blob5 one one one
                 = Ok k
                 /\ same_shape k blob5))
  /\ @get_probe_kernel_subtrgaussian externals blob5 huge
     = Raise OverflowError.
Proof.
  split.
  - exact (@kernels_have_probe_shape externals shifted_ar_shape blob5
             one one one one eq_refl).
  - exact (proj1 (proj2 (@kernels_have_probe_shape externals shifted_ar_shape
                           blob5 huge one one one eq_refl))).
Defined.

Lemma kernels_ignore_intensity_scale_witness :
  @get_probe_kernel externals (mul_s blob5 (Fin (Q2Qc (inject_Z 3))))
  = @get_probe_kernel externals blob5
  /\ @get_probe_kernel_subtrgaussian externals
       (mul_s blob5 (Fin (Q2Qc (inject_Z 3)))) one
     = @get_probe_kernel_subtrgaussian externals blob5 one
  /\ @get_probe_kernel_logistictrench externals
       (mul_s blob5 (Fin (Q2Qc (inject_Z 3)))) one one one
     = @get_probe_kernel_logistictrench externals blob5 one one one.
Proof.
  assert (H : @get_CoM externals blob5
              = (Fin (Q2Qc (inject_Z 2)), Fin (Q2Qc (inject_Z 2))))
    by (apply pair_of_fractions; vm_compute; reflexivity).
  assert (Hc : @get_CoM externals (mul_s blob5 (Fin (Q2Qc (inject_Z 3))))
               = (Fin (Q2Qc (inject_Z 2)), Fin (Q2Qc (inject_Z 2))))
    by (apply pair_of_fractions; vm_compute; reflexivity).
  apply (@kernels_ignore_intensity_scale externals blob5
           (Q2Qc (inject_Z 3)) (Q2Qc (inject_Z 2)) (Q2Qc (inject_Z 2))
           one one one one).
  - vm_compute. reflexivity.
  - vm_compute. reflexivity.
  - rewrite Hc, H. reflexivity.
  - exact H.
Defined.

Lemma cancelling_probe_is_normalised_to_infinities_witness :
  is_zero_num (np_sum cancelling) = true
  /\ every (fun v => is_finite v = false)
       (div_s cancelling (np_sum cancelling))
  /\ item (div_s cancelling (np_sum cancelling)) 0 1 = Some (Inf true)
  /\ @get_probe_kernel externals cancelling
     = Ok (shifted_ar (div_s cancelling (np_sum cancelling))
             (fneg (fst (CoM cancelling))) (fneg (snd (CoM cancelling)))).
Proof.
  assert (H : is_zero_num (np_sum cancelling) = true)
    by (vm_compute; reflexivity).
  destruct (@cancelling_probe_is_normalised_to_infinities externals
              cancelling H) as [H1 [_ H3]].
  split; [exact H|]. split; [exact H1|]. split; [|exact H3].
  vm_compute. reflexivity.
Defined.

Lemma zero_sigma_kernel_is_nan_witness :
  @get_probe_kernel_subtrgaussian externals blob5 zero
  = Ok (shifted_ar (nan_like blob5)
          (fneg (fst (CoM blob5))) (fneg (snd (CoM blob5)))).
Proof.
  apply (@zero_sigma_kernel_is_nan externals blob5). reflexivity.
Defined.

Lemma nan_pixel_empties_the_thresholded_mask_witness :
  np_max with_nan = Ok NaN
  /\ gt_s with_nan (fmul NaN default_mask_threshold)
     = amap (fun _ => false) with_nan
  /\ @probe_mask externals with_nan default_mask_threshold 1 1
     = Ok (dilation (opening (amap (fun _ => false) with_nan) 1) 1).
Proof.
  apply (@nan_pixel_empties_the_thresholded_mask externals with_nan
           default_mask_threshold 1 1 0 0).
  reflexivity.
Defined.

Lemma threshold_one_excludes_the_peak_witness :
  exists peak,
    np_max blob5 = Ok (Fin peak)
    /\ @probe_mask externals blob5 one 1 1
       = Ok (dilation (opening (amap (fun _ => false) blob5) 1) 1).
Proof.
  assert (H1 : all_finite blob5 = true) by reflexivity.
  assert (H2 : concat blob5 <> []).
  { intro H. apply (f_equal (@length num)) in H. vm_compute in H.
    discriminate H. }
  destruct (@threshold_one_excludes_the_peak externals blob5 1 1 H1 H2)
    as [peak [Hp [Hg _]]].
  exists peak. split; [exact Hp|exact Hg].
Defined.

Lemma returned_probe_is_not_negative_witness :
  exists out,
    result (@get_average_probe_from_vacuum_scan externals
              default_mask_threshold 1 1) (aligned 2 2) = Ok out
    /\ every finite_nonneg out.
Proof.
  pose (out := match result (@get_average_probe_from_vacuum_scan externals
                               default_mask_threshold 1 1) (aligned 2 2) with
               | Ok a => a
               | Raise _ => []
               end).
  assert (H : result (@get_average_probe_from_vacuum_scan externals
                        default_mask_threshold 1 1) (aligned 2 2) = Ok out)
    by (vm_compute; reflexivity).
  exists out. split; [exact H|].
  exact (@returned_probe_is_not_negative externals default_mask_threshold
           1 1 (aligned 2 2) out (aligned_finite_nonneg 2 2)
           (shifted_ar_every finite_nonneg) H).
Defined.

Lemma returned_probe_is_zero_outside_the_mask_witness :
  exists out probe mask,
    result (@get_average_probe_from_vacuum_scan externals
              default_mask_threshold 1 1) (aligned 2 2) = Ok out
    /\ result (@accumulate_probe externals) (aligned 2 2) = Ok probe
    /\ @probe_mask externals probe default_mask_threshold 1 1 = Ok mask
    /\ (forall i j v,
          item out i j = Some v -> item mask i j = Some false -> v = zero)
    /\ (forall i j v,
          item out i j = Some v -> item mask i j = Some true ->
          item probe i j = Some v).
Proof.
  pose (out := match result (@get_average_probe_from_vacuum_scan externals
                               default_mask_threshold 1 1) (aligned 2 2) with
               | Ok a => a
               | Raise _ => []
               end).
  assert (H : result (@get_average_probe_from_vacuum_scan externals
                        default_mask_threshold 1 1) (aligned 2 2) = Ok out)
    by (vm_compute; reflexivity).
  assert (H3 : forall i j, all_finite (pattern (aligned 2 2) i j) = true)
    by (intros i j; vm_compute; reflexivity).
  destruct (@returned_probe_is_zero_outside_the_mask externals
              default_mask_threshold 1 1 (aligned 2 2) out H3
              shifted_ar_finite H)
    as [probe [mask [Hacc [Hm [_ [Hz Hk]]]]]].
  exists out, probe, mask.
  split; [exact H|]. split; [exact Hacc|]. split; [exact Hm|].
  split; [exact Hz|exact Hk].
Defined.

End Runs.
